(** * Traffic-accident pipeline: a shallow embedding and its properties

    The pipeline reads yearly crash tables with pandas, reconciles their
    schemas, cleans values with pandas and Polars, and exports the result.
    This development embeds [process_and_validate.py],
    [cleaning_and_export.py], the file handling of [data_loader.py] and
    the severity filter of [filter_and_visualize.py], and proves the
    properties stated for them.

    Python values are modelled as follows.
    - [str] is [string] (a sequence of bytes; non-ASCII text is UTF-8).
    - A raised exception is the [Raise] case of [outcome].
    - [print] appends to an explicit output log.
    - A pandas [DataFrame] is a list of column labels and a list of rows.
    - A Polars [DataFrame] is a list of named, typed series. *)

From Stdlib Require Import ZArith QArith Ascii.
From stdpp Require Import base option list strings gmap sets pretty.

Local Open Scope string_scope.
Local Open Scope list_scope.

(** ** Exceptions and output *)

Module Py.

(** The exception classes the embedded code can meet. The message of a
    [PolarsError] opens with the name of the Polars exception. *)
Inductive exn : Type :=
| KeyError (label : string)
| TypeError (msg : string)
| ValueError (msg : string)
| IndexError (msg : string)
| OSError (msg : string)
| InvalidIndexError (msg : string)
| PolarsError (msg : string).

Definition double_quote : ascii := "034"%char.

Definition hex_digit (n : nat) : ascii :=
  ascii_of_nat (if Nat.ltb n 10 then 48 + n else 87 + n).

(** One character of [repr(s)] between the quotes [quote]: the quote and
    the backslash get a backslash, tab, line feed and carriage return
    their letter, any other control character its two hexadecimal digits;
    a byte from 128 on is kept, as Python keeps the printable characters
    beyond ASCII. *)
Definition repr_char (quote c : ascii) : string :=
  let n := nat_of_ascii c in
  if (Ascii.eqb c quote || Ascii.eqb c "\")%bool then String "\" (String c "")
  else if Nat.eqb n 9 then "\t"
  else if Nat.eqb n 10 then "\n"
  else if Nat.eqb n 13 then "\r"
  else if (Nat.ltb n 32 || Nat.eqb n 127)%bool then
    String "\" (String "x" (String (hex_digit (n / 16))
                              (String (hex_digit (n mod 16)) "")))
  else String c "".

Fixpoint repr_body (quote : ascii) (s : string) : string :=
  match s with
  | "" => ""
  | String c t => repr_char quote c +:+ repr_body quote t
  end.

Fixpoint has_char (c : ascii) (s : string) : bool :=
  match s with
  | "" => false
  | String a t => (Ascii.eqb a c || has_char c t)%bool
  end.

(** Python's [repr(s)] of a string: between double quotes when the text
    holds a single quote and no double quote, between single quotes
    otherwise. *)
Definition repr (s : string) : string :=
  let quote :=
    if (has_char "'" s && negb (has_char double_quote s))%bool
    then double_quote else "'"%char in
  String quote (repr_body quote s +:+ String quote "").

(** Every byte is below 128. *)
Fixpoint is_ascii (s : string) : bool :=
  match s with
  | "" => true
  | String c t => (Nat.ltb (nat_of_ascii c) 128 && is_ascii t)%bool
  end.

(** Python's [str(e)] for the exceptions above: the message, and for a
    [KeyError] the [repr] of the missing key. *)
Definition exn_str (e : exn) : string :=
  match e with
  | KeyError label => repr label
  | TypeError msg | ValueError msg | IndexError msg | OSError msg
  | InvalidIndexError msg | PolarsError msg => msg
  end.

Inductive outcome (A : Type) : Type :=
| Ret (a : A)
| Raise (e : exn).
Arguments Ret {A} a.
Arguments Raise {A} e.

Definition bind {A B} (m : outcome A) (k : A → outcome B) : outcome B :=
  match m with
  | Ret a => k a
  | Raise e => Raise e
  end.

Definition returns {A} (m : outcome A) : Prop := ∃ a, m = Ret a.
Definition raises {A} (m : outcome A) : Prop := ∃ e, m = Raise e.

(** [[f(x) for x in xs]] where [f] may raise: the first exception wins. *)
Fixpoint for_each {A B} (f : A → outcome B) (xs : list A) : outcome (list B) :=
  match xs with
  | [] => Ret []
  | x :: rest =>
      bind (f x) (λ y, bind (for_each f rest) (λ ys, Ret (y :: ys)))
  end.

End Py.

(** [outcome] is used through stdpp's monad notation [x ← m; k]. *)
Global Instance outcome_ret : MRet Py.outcome := @Py.Ret.
Global Instance outcome_bind : MBind Py.outcome := λ A B k m, Py.bind m k.

(** ** Strings *)

Module Str.

Definition newline : ascii := "010"%char.

Definition is_upper (c : ascii) : bool :=
  let n := nat_of_ascii c in (Nat.leb 65 n && Nat.leb n 90)%bool.

Definition is_digit (c : ascii) : bool :=
  let n := nat_of_ascii c in (Nat.leb 48 n && Nat.leb n 57)%bool.

Definition digit_value (c : ascii) : Z := (Z.of_nat (nat_of_ascii c) - 48)%Z.

Definition lower_char (c : ascii) : ascii :=
  if is_upper c then ascii_of_nat (nat_of_ascii c + 32) else c.

(** The lead byte of the UTF-8 encoding of U+00C0 to U+00FF. *)
Definition latin1_lead : ascii := "195"%char.

(** Second byte of a two-byte character with lead [latin1_lead]: the
    capitals U+00C0 to U+00DE (bytes 128 to 158), except the
    multiplication sign U+00D7 (byte 151), move to their small letters. *)
Definition lower_latin1 (d : ascii) : ascii :=
  let n := nat_of_ascii d in
  if (Nat.leb 128 n && Nat.leb n 158 && negb (Nat.eqb n 151))%bool
  then ascii_of_nat (n + 32) else d.

(** Python's [s.lower()] and Polars' [str.to_lowercase()] on UTF-8 text
    whose characters lie in ASCII or Latin-1, the alphabet of files
    decoded as ISO-8859-1; other characters are kept as they are. *)
Fixpoint lower (s : string) : string :=
  match s with
  | "" => ""
  | String c t =>
      if Ascii.eqb c latin1_lead then
        match t with
        | "" => String c ""
        | String d t' => String c (String (lower_latin1 d) (lower t'))
        end
      else String (lower_char c) (lower t)
  end.

(** [Some rest] when [s = p ++ rest]. *)
Fixpoint strip_prefix (p s : string) : option string :=
  match p, s with
  | "", _ => Some s
  | String a p', String b s' =>
      if Ascii.eqb a b then strip_prefix p' s' else None
  | String _ _, "" => None
  end.

Definition startswith (s p : string) : bool :=
  match strip_prefix p s with Some _ => true | None => false end.

Fixpoint contains_char (c : ascii) (s : string) : bool :=
  match s with
  | "" => false
  | String a t => (Ascii.eqb a c || contains_char c t)%bool
  end.

(** The first rule whose (non-empty) pattern starts the text. *)
Fixpoint first_match (rules : list (string * string)) (s : string)
  : option (string * string) :=
  match rules with
  | [] => None
  | (pat, rep) :: more =>
      match pat with
      | "" => first_match more s
      | String _ _ =>
          if startswith s pat then Some (pat, rep) else first_match more s
      end
  end.

(** One left-to-right pass replacing non-overlapping matches. [skip]
    counts the characters of the current match still to be consumed. *)
Fixpoint replace_scan (rules : list (string * string)) (skip : nat)
    (s : string) : string :=
  match s with
  | "" => ""
  | String c t =>
      match skip with
      | S k => replace_scan rules k t
      | O =>
          match first_match rules s with
          | Some (pat, rep) =>
              rep +:+ replace_scan rules (Nat.pred (String.length pat)) t
          | None => String c (replace_scan rules 0 t)
          end
      end
  end.

(** Polars' [str.replace_many(patterns, replace_with)] on one value: every
    non-overlapping occurrence of [patterns[i]] becomes [replace_with[i]].
    Polars searches with an Aho-Corasick automaton that reports the match
    ending first; every pattern list of the pipeline is free of patterns
    contained in one another, so that match is the leftmost one and at
    most one pattern matches at a position, which is what the scan does. *)
Definition replace_many (patterns replace_with : list string) (s : string)
  : string :=
  replace_scan (zip patterns replace_with) 0 s.

(** [p] occurs somewhere in [s]. *)
Fixpoint occurs_in (p s : string) : bool :=
  (startswith s p
   || match s with
      | "" => false
      | String _ t => occurs_in p t
      end)%bool.

(** No pattern of the list is empty or occurs in another pattern of it. *)
Fixpoint contained_free_from (before patterns : list string) : bool :=
  match patterns with
  | [] => true
  | p :: more =>
      (negb (String.eqb p "")
       && forallb (λ q, negb (occurs_in p q) && negb (occurs_in q p))
            (before ++ more)
       && contained_free_from (p :: before) more)%bool
  end.

Definition contained_free (patterns : list string) : bool :=
  contained_free_from [] patterns.

(** Python's [s.replace(old, new)] for a non-empty [old]: all
    non-overlapping occurrences, left to right. *)
Definition replace (old new : string) (s : string) : string :=
  replace_scan [(old, new)] 0 s.

(** The text from the first line break on. *)
Fixpoint from_line_end (s : string) : string :=
  match s with
  | "" => ""
  | String c t => if Ascii.eqb c newline then s else from_line_end t
  end.

(** Polars' [str.replace(lit + ".*", value)] on one value, for a literal
    [lit] without regex metacharacters: the leftmost occurrence of [lit]
    together with the rest of its line ([.] does not match a line break,
    [*] is greedy) becomes [value]; only this first match is replaced. *)
Fixpoint replace_to_line_end (lit value : string) (s : string) : string :=
  match strip_prefix lit s with
  | Some rest => value +:+ from_line_end rest
  | None =>
      match s with
      | "" => ""
      | String c t => String c (replace_to_line_end lit value t)
      end
  end.

(** The value of a run of decimal digits, [None] on any other character. *)
Fixpoint digits (acc : Z) (s : string) : option Z :=
  match s with
  | "" => Some acc
  | String c t =>
      if is_digit c then digits (10 * acc + digit_value c)%Z t else None
  end.

Definition unsigned_digits (s : string) : option Z :=
  match s with
  | "" => None
  | String _ _ => digits 0%Z s
  end.

Definition int64_min : Z := (- 2 ^ 63)%Z.
Definition int64_max : Z := (2 ^ 63 - 1)%Z.

(** Polars' non-strict cast of a string to [Int64]: an optional sign and
    one or more decimal digits whose value fits in 64 bits; every other
    text is null. *)
Definition parse_int64 (s : string) : option Z :=
  let signed :=
    match s with
    | String "-" t => Z.opp <$> unsigned_digits t
    | String "+" t => unsigned_digits t
    | _ => unsigned_digits s
    end in
  z ← signed;
  if ((int64_min <=? z)%Z && (z <=? int64_max)%Z)%bool then Some z else None.

End Str.

(** ** pandas tables *)

Module Pandas.

(** A cell: missing ([NaN], [None]), a string, or a number. Numbers are
    exact rationals standing for the floats pandas holds; no property
    below looks at their value. *)
Inductive cell : Type :=
| CNull
| CStr (s : string)
| CNum (q : Q).

Definition isna (c : cell) : bool :=
  match c with CNull => true | _ => false end.

Definition notna (c : cell) : bool := negb (isna c).

(** A [DataFrame]: its column labels, in order and possibly repeated, and
    its rows, each holding one cell per column. *)
Record frame : Type := Frame {
  columns : list string;
  rows : list (list cell)
}.

(** [df.shape[0]] *)
Definition height (df : frame) : nat := length (rows df).

(** [df.empty]: some axis has length zero. *)
Definition empty (df : frame) : bool :=
  match rows df, columns df with
  | [], _ | _, [] => true
  | _, _ => false
  end.

(** [pd.DataFrame()] *)
Definition no_frame : frame := Frame [] [].

Definition cell_at (i : nat) (row : list cell) : cell :=
  default CNull (row !! i).

Definition label_at (i : nat) (labels : list string) : string :=
  default "" (labels !! i).

(** The positions, counted from [i], at which [labels] holds [c]. *)
Fixpoint positions_from (i : nat) (c : string) (labels : list string)
  : list nat :=
  match labels with
  | [] => []
  | x :: more =>
      if decide (x = c) then i :: positions_from (S i) c more
      else positions_from (S i) c more
  end.

Definition positions (c : string) (labels : list string) : list nat :=
  positions_from 0 c labels.

(** The positions a label selects: all columns carrying it, and a
    [KeyError] when there is none. *)
Definition locate (labels : list string) (c : string)
  : Py.outcome (list nat) :=
  match positions c labels with
  | [] => Py.Raise (Py.KeyError c)
  | ps => Py.Ret ps
  end.

(** [df[cols]] for a list of labels: the selected columns in the order of
    [cols], every row kept. *)
Definition getitem_list (df : frame) (cols : list string)
  : Py.outcome frame :=
  found ← Py.for_each (locate (columns df)) cols;
  let idx := List.concat found in
  mret (Frame ((λ i, label_at i (columns df)) <$> idx)
              ((λ row, (λ i, cell_at i row) <$> idx) <$> rows df)).

(** The labels of [labels] not in [seen], each once, in order of first
    appearance. *)
Fixpoint first_seen (seen labels : list string) : list string :=
  match labels with
  | [] => []
  | x :: more =>
      if decide (x ∈ seen) then first_seen seen more
      else x :: first_seen (x :: seen) more
  end.

(** A row of [df] laid out on the labels [target]; a label [df] lacks
    gets a missing cell. *)
Definition reindex_row (df : frame) (target : list string)
    (row : list cell) : list cell :=
  (λ c, match positions c (columns df) with
        | i :: _ => cell_at i row
        | [] => CNull
        end) <$> target.

Definition same_columns (f : frame) (parts : list frame) : bool :=
  forallb (λ g, bool_decide (columns g = columns f)) parts.

Definition all_unique (parts : list frame) : bool :=
  forallb (λ g, bool_decide (NoDup (columns g))) parts.

(** [pd.concat(parts, ignore_index=True)]: rows are stacked in order.
    Parts with identical labels are stacked as they are; otherwise the
    result has the union of the labels in order of first appearance and
    each part is laid out on it, which pandas refuses when a part has a
    repeated label. *)
Definition concat (parts : list frame) : Py.outcome frame :=
  match parts with
  | [] => Py.Raise (Py.ValueError "No objects to concatenate")
  | f :: _ =>
      if same_columns f parts then
        Py.Ret (Frame (columns f) (List.concat (rows <$> parts)))
      else if all_unique parts then
        let target := first_seen [] (List.concat (columns <$> parts)) in
        Py.Ret (Frame target
          (List.concat ((λ g, reindex_row g target <$> rows g) <$> parts)))
      else
        Py.Raise (Py.InvalidIndexError
          "Reindexing only valid with uniquely valued Index objects")
  end.

(** The column at position [i] as a list of cells. *)
Definition column_at (i : nat) (df : frame) : list cell :=
  cell_at i <$> rows df.

(** Every row holds one cell per column. *)
Definition well_formed (df : frame) : Prop :=
  Forall (λ row, length row = length (columns df)) (rows df).

(** The label [c] names exactly one column of [df]. *)
Definition names_one_column (df : frame) (c : string) : Prop :=
  ∃ i, positions c (columns df) = [i].

(** The cells under the label [c]: the first column carrying it. *)
Definition labelled_column (df : frame) (c : string) : list cell :=
  match positions c (columns df) with
  | i :: _ => column_at i df
  | [] => []
  end.

(** [df[col] = values] for the column at position [i]; [values] has one
    cell per row. *)
Definition set_column_at (i : nat) (values : list cell) (df : frame)
  : frame :=
  Frame (columns df)
        (zip_with (λ row v, <[i := v]> row) (rows df) values).

(** [df.assign(name=NaN)] for a label [df] lacks: a new last column
    of missing cells. *)
Definition assign_nan (name : string) (df : frame) : frame :=
  Frame (columns df ++ [name]) ((λ row, row ++ [CNull]) <$> rows df).

(** A row as a record from label to cell. *)
Definition record (labels : list string) (row : list cell)
  : gmap string cell :=
  list_to_map (zip labels row).

Definition records (df : frame) : list (gmap string cell) :=
  record (columns df) <$> rows df.

End Pandas.

(** ** Polars tables *)

Module Polars.

Inductive series : Type :=
| Utf8 (vals : list (option string))
| Int64 (vals : list (option Z)).

(** A Polars [DataFrame]: named series, the names distinct. *)
Definition frame : Type := list (string * series).

Fixpoint get_column (name : string) (df : frame) : Py.outcome series :=
  match df with
  | [] => Py.Raise (Py.PolarsError ("ColumnNotFoundError: " +:+ name))
  | (n, s) :: more =>
      if decide (n = name) then Py.Ret s else get_column name more
  end.

Fixpoint set_column (name : string) (s : series) (df : frame) : frame :=
  match df with
  | [] => []
  | (n, old) :: more =>
      if decide (n = name) then (n, s) :: more
      else (n, old) :: set_column name s more
  end.

(** [df.with_columns(expr)] where [expr] rewrites the column [name] and
    keeps its name. *)
Definition with_column (name : string) (expr : series → Py.outcome series)
    (df : frame) : Py.outcome frame :=
  old ← get_column name df;
  new ← expr old;
  mret (set_column name new df).

(** The [str] namespace applies to string columns only; nulls stay. *)
Definition str_map (f : string → string) (s : series) : Py.outcome series :=
  match s with
  | Utf8 vals => Py.Ret (Utf8 (option_map f <$> vals))
  | _ => Py.Raise (Py.PolarsError "SchemaError: expected String type")
  end.

Definition str_to_lowercase : series → Py.outcome series :=
  str_map Str.lower.

(** [str.replace_many(patterns, replace_with)] with two lists: a single
    replacement serves every pattern, otherwise the lists must have the
    same length. *)
Definition str_replace_many (patterns replace_with : list string)
    (s : series) : Py.outcome series :=
  match replace_with with
  | [r] =>
      str_map (Str.replace_many patterns (replicate (length patterns) r)) s
  | _ =>
      if decide (length patterns = length replace_with) then
        str_map (Str.replace_many patterns replace_with) s
      else Py.Raise (Py.PolarsError
             "InvalidOperationError: expected the same amount of patterns as replacement strings")
  end.

(** [str.replace(lit + ".*", value)] *)
Definition str_replace_to_line_end (lit value : string)
  : series → Py.outcome series :=
  str_map (Str.replace_to_line_end lit value).

(** [cast(pl.Int64, strict=False)]: what does not convert is null. *)
Definition cast_int64 (s : series) : Py.outcome series :=
  match s with
  | Utf8 vals => Py.Ret (Int64 ((λ v, v ≫= Str.parse_int64) <$> vals))
  | Int64 vals => Py.Ret (Int64 vals)
  end.

Definition is_null {A} (v : option A) : bool :=
  match v with None => true | Some _ => false end.

(** [df.filter(pl.col(name).is_null()).select(name).unique()]: the
    distinct values the column [name] has in the rows where it is null. *)
Definition null_values (name : string) (df : frame) : Py.outcome series :=
  s ← get_column name df;
  mret match s with
       | Utf8 vals => Utf8 (remove_dups (filter (λ v, is_null v) vals))
       | Int64 vals => Int64 (remove_dups (filter (λ v, is_null v) vals))
       end.

Definition series_height (s : series) : nat :=
  match s with
  | Utf8 vals => length vals
  | Int64 vals => length vals
  end.

End Polars.

(** ** Output *)

(** What [print] wrote: a line of text or a rendered Polars table. *)
Inductive printed : Type :=
| Line (text : string)
| Table (t : Polars.frame).

Definition stdout : Type := list printed.

(** ** process_and_validate.py *)

Module ProcessAndValidate.
Import Pandas.

(** What the module reads from disk. [listdir] is [os.listdir];
    [read_excel p] is [pd.read_excel(p, usecols=[0], skiprows=0)];
    the last two fields are [process_files_without_headers] and
    [process_files_with_headers], which only read CSV files. *)
Record sources : Type := Sources {
  listdir : string → Py.outcome (list string);
  read_excel : string → Py.outcome frame;
  files_without_headers : string → list cell → Py.outcome frame;
  files_with_headers : string → Py.outcome (list frame)
}.

(** [os.path.join(a, b)] for a relative [b]. *)
Definition path_join (a b : string) : string :=
  if decide (a = "") then b
  else if Str.startswith (String.rev a) "/" then a +:+ b
  else a +:+ "/" +:+ b.

Definition dictionary_prefix : string := "diccionario-percances-viales-axa".
Definition month_field : cell := CStr "Mes Reporte".
Definition day_number_field : cell := CStr "Día Numero".

Definition is_str (name : string) (c : cell) : bool :=
  match c with
  | CStr s => bool_decide (s = name)
  | _ => false
  end.

(** [xs.index(name)]: the first position holding the string [name]. *)
Fixpoint index_of (name : string) (xs : list cell) : option nat :=
  match xs with
  | [] => None
  | x :: more => if is_str name x then Some O else S <$> index_of name more
  end.

(** [xs.insert(i, x)] *)
Definition list_insert_at {A} (i : nat) (x : A) (xs : list A) : list A :=
  take i xs ++ x :: drop i xs.

(** [df.iloc[:, 0].tolist()] *)
Definition first_column (df : frame) : Py.outcome (list cell) :=
  match columns df with
  | [] => Py.Raise (Py.IndexError "single positional indexer is out-of-bounds")
  | _ :: _ => Py.Ret (column_at 0 df)
  end.

Definition read_headers (src : sources) (base_dir : string)
  : Py.outcome (list cell) :=
  let dict_folder := path_join base_dir "data-dictionary" in
  names ← listdir src dict_folder;
  match filter (λ f, Str.startswith f dictionary_prefix = true) names with
  | [] => Py.Raise (Py.IndexError "list index out of range")
  | dict_file :: _ =>
      let file_path := path_join dict_folder dict_file in
      headers_df ← read_excel src file_path;
      headers ← first_column headers_df;
      match index_of "Mes Reporte" headers with
      | None => Py.Raise (Py.ValueError "'Mes Reporte' is not in list")
      | Some i => mret (list_insert_at (S i) day_number_field headers)
      end
  end.

Definition column_renames : list (string * string) :=
  [ ("daa_numero", "dia_numero");
    ("aao", "ano");
    ("nivel_daao_vehiculo", "nivel_dano_vehiculo");
    ("causa_siniestro", "tipo_de_percance");
    ("punto_de_impacto", "punto_impacto");
    ("ciudad", "ciudad_municipio");
    ("lesionados", "total_lesionados");
    ("relacion_lesionados", "rol_lesionado");
    ("nivel_lesionados", "nivel_lesion");
    ("obra_civil", "dano_obra_civil");
    ("fuga", "tercero_fuga");
    ("seguro", "aseguradora");
    ("taxi", "servicio_taxi") ].

(** [df.rename(columns=table)] on one label. *)
Fixpoint rename (table : list (string * string)) (c : string) : string :=
  match table with
  | [] => c
  | (old, new) :: more => if decide (c = old) then new else rename more c
  end.

Section Normalizer.
(** [unidecode.unidecode], the transliteration table of the library. *)
Variable unidecode : string → string.

Definition clean_name (col : string) : string :=
  rename column_renames
    (Str.replace "_reporte" ""
       (unidecode (Str.replace " " "_" (Str.lower col)))).

(** The table object is changed in place and returned: the result is
    that object after the call. *)
Definition clean_column_names (df : frame) : frame :=
  Frame (clean_name <$> columns df) (rows df).
End Normalizer.

Definition add_missing (name : string) (df : frame) : frame :=
  if decide (name ∈ columns df) then df else assign_nan name df.

Definition add_missing_columns (df : frame) : frame :=
  add_missing "nivel_lesion" (add_missing "rol_lesionado" df).

(** [set.intersection] applied to the unpacked list of sets: Python
    refuses an empty argument list. *)
Definition set_intersection (sets : list (gset string))
  : Py.outcome (gset string) :=
  match sets with
  | [] => Py.Raise (Py.TypeError
            "unbound method set.intersection() needs an argument")
  | s :: more => Py.Ret (foldl (∩) s more)
  end.

(** [list(s)] lists the elements of a set once each, in an order Python
    does not fix. *)
Definition lists_sets (list_of : gset string → list string) : Prop :=
  ∀ s, NoDup (list_of s) ∧ ∀ x, x ∈ list_of s ↔ x ∈ s.

Section Reconciler.
(** The order in which [list(...)] enumerates a set. *)
Variable list_of : gset string → list string.

Definition get_common_columns (dfs : list frame)
  : Py.outcome (list string) :=
  common ← set_intersection ((λ df, list_to_set (columns df)) <$> dfs);
  mret (list_of common).

(** Lines 147 to 149 of [process_and_clean_data]: project every table
    on the common columns and stack the projections. *)
Definition concat_common_columns (all_dfs : list frame)
  : Py.outcome frame :=
  common_columns ← get_common_columns all_dfs;
  projected ← Py.for_each (λ df, getitem_list df common_columns) all_dfs;
  concat projected.

Definition process_and_clean_data (unidecode : string → string)
    (src : sources) (base_dir : string)
  : Py.outcome (frame * list frame) :=
  headers ← read_headers src base_dir;
  df_without_headers ← files_without_headers src base_dir headers;
  dfs_with_headers ← files_with_headers src base_dir;
  let all_dfs :=
    if negb (empty df_without_headers)
    then df_without_headers :: dfs_with_headers
    else dfs_with_headers in
  let all_dfs := clean_column_names unidecode <$> all_dfs in
  let all_dfs := add_missing_columns <$> all_dfs in
  df_final ← concat_common_columns all_dfs;
  mret (df_final, all_dfs).
End Reconciler.

(** The objects [validate_data] is called on, and the output written so
    far. *)
Record validation : Type := Validation {
  all_dfs : list frame;
  df_final : frame;
  out : stdout
}.

Definition print (line : string) (v : validation) : validation :=
  Validation (all_dfs v) (df_final v) (out v ++ [Line line]).

Definition total_rows (dfs : list frame) : nat :=
  foldr Nat.add O (height <$> dfs).

Definition dropped_message (original final : nat) : string :=
  "Rows were dropped during cleaning. Original: " +:+ pretty original
    +:+ ", Final: " +:+ pretty final.

(** The call returns its answer and leaves the state it ran in. *)
Definition validate_data (v : validation) : Py.outcome bool * validation :=
  let total := total_rows (all_dfs v) in
  let v' :=
    if decide (total = height (df_final v))
    then print "No rows were dropped during cleaning" v
    else print (dropped_message total (height (df_final v))) v in
  (Py.Ret (bool_decide (total = height (df_final v))), v').

End ProcessAndValidate.

(** ** cleaning_and_export.py *)

Module CleaningAndExport.

(** *** Numeric coercion *)

Section Numeric.
Import Pandas.

(** The text-to-number parser inside [pd.to_numeric]; [None] when the
    text is no number (or parses to [NaN]). *)
Variable to_number : string → option Q.

(** [pd.to_numeric(series, errors="coerce")] on one cell. *)
Definition to_numeric (c : cell) : cell :=
  match c with
  | CNull => CNull
  | CNum q => CNum q
  | CStr s =>
      match to_number s with
      | Some q => CNum q
      | None => CNull
      end
  end.

(** [pd.to_numeric(x, errors="coerce").isna() & x.notna()] on one cell. *)
Definition coerce_mask (c : cell) : bool :=
  (isna (to_numeric c) && notna c)%bool.

(** [mask.sum()] *)
Definition mask_sum (series : list cell) : nat :=
  length (filter (λ c, coerce_mask c = true) series).

(** The body of the [try]: [df[col]] is a series only when exactly one
    column carries the label; [pd.to_numeric] refuses a table. *)
Definition convert_column (df : frame) (col : string)
  : Py.outcome (frame * nat) :=
  ps ← locate (columns df) col;
  match ps with
  | [i] =>
      let series := column_at i df in
      mret (set_column_at i (to_numeric <$> series) df, mask_sum series)
  | _ => Py.Raise (Py.TypeError
           "arg must be a list, tuple, 1-d array, or Series")
  end.

(** The state of the loop: the table, the running count, the output. *)
Definition convert_step (st : frame * nat * stdout) (col : string)
  : frame * nat * stdout :=
  let '(df, total_coerced, out) := st in
  match convert_column df col with
  | Py.Ret (df', n) => (df', total_coerced + n, out)
  | Py.Raise e =>
      (df, total_coerced,
       out ++ [Line ("Error converting column " +:+ col +:+ ": "
                      +:+ Py.exn_str e)])
  end.

Definition coerced_message (total_coerced : nat) : string :=
  "Total number of values coerced to NaN: " +:+ pretty total_coerced.

Definition convert_numeric_columns (df : frame)
    (cols_to_convert : list string) (out : stdout) : frame * stdout :=
  let '(df', total_coerced, out') :=
    foldl convert_step (df, O, out) cols_to_convert in
  (df', out' ++ [Line (coerced_message total_coerced)]).
End Numeric.

(** A parser for plain decimal literals (an optional sign, digits, an
    optional fraction), to run the coercion on concrete columns. *)
Definition split_at_dot (s : string) : string * option string :=
  (fix go (s : string) : string * option string :=
     match s with
     | "" => ("", None)
     | String c t =>
         if Ascii.eqb c "."%char then ("", Some t)
         else let '(a, b) := go t in (String c a, b)
     end) s.

Definition decimal_literal (s : string) : option Q :=
  let '(neg, body) :=
    match s with
    | String "-" t => (true, t)
    | String "+" t => (false, t)
    | _ => (false, s)
    end in
  let '(whole, frac) := split_at_dot body in
  let frac := default "" frac in
  if decide (whole +:+ frac = "") then None
  else
    n ← Str.digits 0%Z (whole +:+ frac);
    let q := Qmake n (Z.to_pos (10 ^ Z.of_nat (String.length frac))) in
    Some (if neg : bool then Qopp q else q).

(** *** Month and damage-level translation *)

Import Polars.

Definition months_spanish : list string :=
  [ "enero"; "febrero"; "marzo"; "abril"; "mayo"; "junio"; "julio";
    "agosto"; "septiembre"; "octubre"; "noviembre"; "diciembre" ].

Definition months_english : list string :=
  [ "January"; "February"; "March"; "April"; "May"; "June"; "July";
    "August"; "September"; "October"; "November"; "December" ].

(** [[str(i) for i in range(1, 13)]] *)
Definition numbers : list string := pretty <$> seq 1 12.

Definition translate_months (pl_df : frame) (out : stdout)
  : Py.outcome frame * stdout :=
  let translated :=
    pl_df ← with_column "mes"
              (λ mes, lowered ← str_to_lowercase mes;
                      str_replace_many months_spanish months_english lowered)
              pl_df;
    pl_df ← with_column "mes"
              (str_replace_many months_english numbers) pl_df;
    with_column "mes" cast_int64 pl_df in
  match translated with
  | Py.Raise e => (Py.Raise e, out)
  | Py.Ret pl_df =>
      match null_values "mes" pl_df with
      | Py.Raise e => (Py.Raise e, out)
      | Py.Ret invalid_months =>
          if decide (0 < series_height invalid_months)%nat then
            (Py.Ret pl_df,
             out ++ [Line "Values in 'mes' that couldn't be converted to integers:";
                     Table [("mes", invalid_months)]])
          else (Py.Ret pl_df, out)
      end
  end.

Definition process_damage_levels (pl_df : frame) : Py.outcome frame :=
  with_column "nivel_dano_vehiculo"
    (λ col,
       col ← str_replace_many ["Bajo"; "Alto"; "Medio"; "Sin "]
               ["Low"; "High"; "Medium"; "No damage"] col;
       col ← str_replace_to_line_end "No damage" "No damage" col;
       col ← str_replace_many ["Low"; "High"; "Medium"; "No damage"]
               ["2"; "4"; "3"; "1"] col;
       col ← str_replace_to_line_end "1" "1" col;
       cast_int64 col)
    pl_df.

(** *** Export *)

(** A keyword value of a writer. *)
Inductive setting : Type :=
| SText (s : string)
| SFlag (b : bool).

(** The file system and the Polars writers. [mkdir_parent p] is
    [Path(p).parent.mkdir(parents=True, exist_ok=True)]; [path_str p] is
    [str(Path(p))]; a writer gets the path and the keyword settings. *)
Record writers : Type := Writers {
  mkdir_parent : string → Py.outcome unit;
  path_str : string → string;
  write_csv : frame → string → gmap string setting → Py.outcome unit;
  write_parquet : frame → string → gmap string setting → Py.outcome unit;
  write_json : frame → string → gmap string setting → Py.outcome unit
}.

Definition default_options : gmap string (gmap string setting) :=
  {[ "csv" := {[ "separator" := SText ","; "include_header" := SFlag true ]};
     "parquet" := {[ "compression" := SText "snappy" ]};
     "json" := {[ "pretty" := SFlag true ]} ]}.

(** The body of the [try]. *)
Definition export_body (io : writers) (df : frame) (file_path : string)
    (format : string) (export_options : gmap string setting)
    (out : stdout) : Py.outcome unit * stdout :=
  let written :=
    if decide (format = "csv") then write_csv io df file_path export_options
    else if decide (format = "parquet")
         then write_parquet io df file_path export_options
    else if decide (format = "json")
         then write_json io df file_path export_options
    else Py.Raise (Py.ValueError ("Unsupported format: " +:+ format)) in
  match written with
  | Py.Ret _ =>
      (Py.Ret (),
       out ++ [Line ("DataFrame successfully exported to "
                      +:+ path_str io file_path)])
  | Py.Raise e => (Py.Raise e, out)
  end.

Definition export_dataframe (io : writers) (df : frame)
    (file_path : string) (format : string)
    (options : option (gmap string setting)) (out : stdout)
  : Py.outcome unit * stdout :=
  match mkdir_parent io file_path with
  | Py.Raise e => (Py.Raise e, out)
  | Py.Ret _ =>
      let export_options := default ∅ (default_options !! format) in
      let export_options :=
        match options with
        | Some given => given ∪ export_options
        | None => export_options
        end in
      (* try ... except Exception as e *)
      match export_body io df file_path format export_options out with
      | (Py.Ret _, out') => (Py.Ret (), out')
      | (Py.Raise e, out') =>
          (Py.Ret (),
           out' ++ [Line ("Error exporting DataFrame: " +:+ Py.exn_str e)])
      end
  end.

End CleaningAndExport.

(** ** The value chains as the specification words them *)

Module Spec.

(** Damage level: Spanish descriptors to English tokens, collapse of a
    "No damage" variant, tokens to "1" to "4", collapse of a "1" variant,
    integer cast. *)
Definition damage_chain (s : string) : option Z :=
  let s := Str.replace_many ["Bajo"; "Alto"; "Medio"; "Sin "]
             ["Low"; "High"; "Medium"; "No damage"] s in
  let s := Str.replace_to_line_end "No damage" "No damage" s in
  let s := Str.replace_many ["Low"; "High"; "Medium"; "No damage"]
             ["2"; "4"; "3"; "1"] s in
  let s := Str.replace_to_line_end "1" "1" s in
  Str.parse_int64 s.

(** Month: lowercase, Spanish names to English names, English names to
    "1" to "12", integer cast. *)
Definition month_chain (s : string) : option Z :=
  let s := Str.lower s in
  let s := Str.replace_many CleaningAndExport.months_spanish
             CleaningAndExport.months_english s in
  let s := Str.replace_many CleaningAndExport.months_english
             CleaningAndExport.numbers s in
  Str.parse_int64 s.

(** What [translate_months] prints when a month came out null: the
    heading and the one-row table of the distinct null values. *)
Definition invalid_months_report : stdout :=
  [ Line "Values in 'mes' that couldn't be converted to integers:";
    Table [("mes", Polars.Int64 [None])] ].

(** The rows of a table, in order, as records over the labels [cols]. *)
Definition projected_records (cols : list string) (df : Pandas.frame)
  : list (gmap string Pandas.cell) :=
  (λ row, Pandas.record cols (Pandas.reindex_row df cols row))
    <$> Pandas.rows df.

(** The three format tags the exporter writes. *)
Definition supported (format : string) : Prop :=
  format = "csv" ∨ format = "parquet" ∨ format = "json".


End Spec.

(** ** Concrete inputs *)

Module Examples.
Import Py Pandas.

(** The damage-level column of the specification's example. *)
Definition damage_example : list (option string) :=
  [ Some "Bajo"; Some "Alto daño total"; Some "Medio"; Some "Sin daño";
    Some "desconocido" ].

(** The one-column table of the specification's coercion example. *)
Definition numeric_example : frame :=
  Frame ["edad"] [[CStr "12"]; [CStr "abc"]; [CStr ""]; [CStr "7"]].

(** Writers that always succeed. *)
Definition working_writers : CleaningAndExport.writers :=
  CleaningAndExport.Writers (λ _, Ret ()) (λ p, p)
    (λ _ _ _, Ret ()) (λ _ _ _, Ret ()) (λ _ _ _, Ret ()).

(** A data-dictionary folder holding the dictionary workbook, whose
    first column lists three fields under a heading. *)
Definition dictionary_on_disk : ProcessAndValidate.sources :=
  ProcessAndValidate.Sources
    (λ folder,
       if decide (folder = "accident_data/data-dictionary")
       then Ret ["notes.txt"; "diccionario-percances-viales-axa-1.xlsx"]
       else Raise (OSError "No such file or directory"))
    (λ path,
       if decide (path = "accident_data/data-dictionary/diccionario-percances-viales-axa-1.xlsx")
       then Ret (Frame ["Campo"]
                   [[CStr "Siniestro"]; [CStr "Mes Reporte"]; [CStr "Hora"]])
       else Raise (OSError "No such file or directory"))
    (λ _ _, Ret no_frame)
    (λ _, Ret []).

(** Two yearly tables sharing the columns [ano] and [mes]. *)
Definition table_2019 : frame :=
  Frame ["ano"; "mes"; "color"]
    [ [CStr "2019"; CStr "enero"; CStr "rojo"];
      [CStr "2019"; CStr "mayo"; CStr "azul"] ].

Definition table_2020 : frame :=
  Frame ["mes"; "ano"; "hora"] [ [CStr "marzo"; CStr "2020"; CStr "10"] ].

End Examples.

(** ** data_loader.py *)

Module DataLoader.

(** [os.path.basename(p)]: what follows the last "/". [cur] is the
    component read so far. *)
Fixpoint basename_from (cur s : string) : string :=
  match s with
  | "" => cur
  | String c t =>
      if Ascii.eqb c "/"%char then basename_from "" t
      else basename_from (cur +:+ String c "") t
  end.

Definition basename (p : string) : string := basename_from "" p.

(** The substring [process_file] looks for in the lower-cased name. *)
Definition dictionary_marker : string := "diccionario-percances-viales-axa-1".

(** The file system as [process_file] uses it, over any type [D] of disk
    states: [path_exists] is [os.path.exists], [write_bytes d p c] is
    opening [p] for binary writing and writing [c], [move d src dst] is
    [shutil.move(src, dst)]; a failing call may still have changed the
    disk. *)
Record disk_ops (D : Type) : Type := DiskOps {
  path_exists : D → string → bool;
  write_bytes : D → string → string → Py.outcome unit * D;
  move : D → string → string → Py.outcome unit * D
}.
Arguments DiskOps {D} _ _ _.
Arguments path_exists {D} _ _ _.
Arguments write_bytes {D} _ _ _ _.
Arguments move {D} _ _ _ _.

Section Clock.
(** [datetime.now().year] *)
Variable current_year : nat.

(** [range(2015, current_year + 1)] *)
Definition years : list nat := seq 2015 (S current_year - 2015).

(** The loop of [extract_year] over the years still to try. *)
Fixpoint first_year (candidates : list nat) (file_name : string)
  : option nat :=
  match candidates with
  | [] => None
  | year :: more =>
      if Str.occurs_in (pretty year) file_name then Some year
      else first_year more file_name
  end.

Definition extract_year (file_name : string) : option nat :=
  first_year years file_name.

(** Where [process_file] files a name: the dictionary folder for a
    dictionary workbook, the folder of its year otherwise, nowhere when no
    year is found ([if year:] also rejects 0). *)
Definition destination_of (base_path data_dict_folder file_name : string)
  : option string :=
  if Str.occurs_in dictionary_marker (Str.lower file_name) then
    Some (ProcessAndValidate.path_join data_dict_folder file_name)
  else
    match extract_year file_name with
    | Some (S _ as year) =>
        Some (ProcessAndValidate.path_join
                (ProcessAndValidate.path_join base_path (pretty year))
                file_name)
    | _ => None
    end.

Definition process_file {D} (ops : disk_ops D)
    (file_path base_path data_dict_folder : string)
    (file_content : option string) (d : D) (out : stdout)
  : Py.outcome unit * D * stdout :=
  let file_name := basename file_path in
  match destination_of base_path data_dict_folder file_name with
  | None =>
      (Py.Ret (), d,
       out ++ [Line ("Could not determine year for file: " +:+ file_name)])
  | Some destination =>
      if path_exists ops d destination then
        (Py.Ret (), d,
         out ++ [Line ("File already exists, skipping: " +:+ destination)])
      else
        let stored :=
          match file_content with
          | Some (String _ _ as content) =>
              write_bytes ops d destination content
          | _ => move ops d file_path destination
          end in
        match stored with
        | (Py.Ret _, d') =>
            (Py.Ret (), d',
             out ++ [Line ("Moved file to: " +:+ destination)])
        | (Py.Raise e, d') => (Py.Raise e, d', out)
        end
  end.
End Clock.

End DataLoader.

(** ** Row filters of Polars *)

Module PolarsRows.
Import Polars.

(** The values at the places where the mask holds. *)
Fixpoint keep {A} (mask : list bool) (vals : list A) : list A :=
  match mask, vals with
  | m :: mask', v :: vals' =>
      if m then v :: keep mask' vals' else keep mask' vals'
  | _, _ => []
  end.

Definition keep_series (mask : list bool) (s : series) : series :=
  match s with
  | Utf8 vals => Utf8 (keep mask vals)
  | Int64 vals => Int64 (keep mask vals)
  end.

(** [df.filter(predicate)] once the predicate is evaluated to a mask: a
    row stays when its entry is true (a null entry counts as false). *)
Definition filter_rows (mask : list bool) (df : frame) : frame :=
  (λ '(name, s), (name, keep_series mask s)) <$> df.

(** [str.contains_any(patterns)] with nulls read as false: some pattern
    occurs in the text. *)
Definition contains_any (patterns : list string) (v : option string) : bool :=
  match v with
  | Some text => existsb (λ p, Str.occurs_in p text) patterns
  | None => false
  end.


End PolarsRows.

(** ** cleaning_and_export.py, the other stages *)

Module CleaningStages.
Import Pandas.







(** The default of [special_value]: a backslash and an N. *)
Definition default_special_value : string := "\N".

(** The default of [state_of_interest]. *)
Definition default_states : list string := ["ciudad"; "Ciudad"; "CIUDAD"].

(** [contains_any] refuses an empty list of patterns. *)
Definition filter_data (df : Polars.frame) (state_of_interest : list string)
  : Py.outcome Polars.frame :=
  estado ← Polars.get_column "estado" df;
  match estado with
  | Polars.Utf8 vals =>
      match state_of_interest with
      | [] =>
          Py.Raise (Py.PolarsError
            "InvalidOperationError: contains_any got an empty list of patterns")
      | _ :: _ =>
          mret (PolarsRows.filter_rows
                  (PolarsRows.contains_any state_of_interest <$> vals) df)
      end
  | _ => Py.Raise (Py.PolarsError "SchemaError: expected String type")
  end.

End CleaningStages.

(** ** filter_and_visualize.py *)

Module FilterAndVisualize.

(** [value >= min_severity] for an integer cell that is not null. *)
Definition at_least (min_severity : Q) (v : option Z) : bool :=
  match v with
  | Some z => Qle_bool min_severity (inject_Z z)
  | None => false
  end.

(** [min_severity < 0 or min_severity > 4] *)
Definition out_of_range (min_severity : Q) : bool :=
  (negb (Qle_bool 0 min_severity) || negb (Qle_bool min_severity 4))%bool.

(** [min_severity] is an [int] or a finite [float], read as a rational.
    The predicate is evaluated on the column [nivel_dano_vehiculo]:
    [is_not_nan] is defined on numeric columns only, and on integers it
    holds wherever the value is not null. *)
Definition filter_crash_severity (df : Polars.frame) (min_severity : Q)
  : Py.outcome Polars.frame :=
  if out_of_range min_severity then
    Py.Raise (Py.ValueError "min_severity must be between 0 and 4 inclusive")
  else
    level ← Polars.get_column "nivel_dano_vehiculo" df;
    match level with
    | Polars.Int64 vals =>
        mret (PolarsRows.filter_rows (at_least min_severity <$> vals) df)
    | _ => Py.Raise (Py.PolarsError
             "InvalidOperationError: is_not_nan is not supported for String")
    end.

End FilterAndVisualize.

(** ** What the stages are expected to print *)

Module Expected.

(** The line [convert_numeric_columns] prints for a label it cannot
    convert: the key error of a label no column carries, the type error
    of a label several columns carry. *)
Definition conversion_error (labels : list string) (col : string) : printed :=
  Line ("Error converting column " +:+ col +:+ ": "
        +:+ match Pandas.positions col labels with
            | [] => Py.exn_str (Py.KeyError col)
            | _ => "arg must be a list, tuple, 1-d array, or Series"
            end).

(** The label names exactly one column. *)
Definition convertible (labels : list string) (col : string) : Prop :=
  length (Pandas.positions col labels) = 1.

Global Instance convertible_dec labels col : Decision (convertible labels col) :=
  decide (length (Pandas.positions col labels) = 1).



(** The line [export_dataframe] prints after its [try]: the success line
    when the writer returned, the caught error otherwise. *)
Definition export_line (io : CleaningAndExport.writers) (file_path : string)
    (written : Py.outcome unit) : printed :=
  match written with
  | Py.Ret _ =>
      Line ("DataFrame successfully exported to "
            +:+ CleaningAndExport.path_str io file_path)
  | Py.Raise e => Line ("Error exporting DataFrame: " +:+ Py.exn_str e)
  end.

(** The keyword settings a writer gets: the caller's value where the
    caller gave one, else the default of the format. *)
Definition merged_setting (format : string)
    (options : option (gmap string CleaningAndExport.setting)) (key : string)
  : option CleaningAndExport.setting :=
  match options ≫= (λ given, given !! key) with
  | Some v => Some v
  | None => CleaningAndExport.default_options !! format ≫= (λ d, d !! key)
  end.

End Expected.

(** ** Concrete inputs, continued *)

Module MoreExamples.
Import Py.

(** A disk as a map from path to content: a path exists when it is
    bound, writing binds it, moving rebinds the content. *)
Definition map_disk : DataLoader.disk_ops (gmap string string) :=
  DataLoader.DiskOps
    (λ d p, bool_decide (is_Some (d !! p)))
    (λ d p content, (Ret (), <[p := content]> d))
    (λ d src dst,
       match d !! src with
       | Some content => (Ret (), <[dst := content]> (delete src d))
       | None => (Raise (OSError "No such file or directory"), d)
       end).

(** A cleaned Polars table of three crashes. *)
Definition crashes : Polars.frame :=
  [ ("estado",
     Polars.Utf8 [Some "Ciudad de Mexico"; Some "Jalisco"; Some "CIUDAD DE MEXICO"]);
    ("nivel_dano_vehiculo", Polars.Int64 [Some 3%Z; Some 4%Z; None]) ].

(** Two yearly files with headers, as read from disk, beside the
    dictionary workbook; no file without headers. *)
Definition yearly_files : ProcessAndValidate.sources :=
  ProcessAndValidate.Sources
    (ProcessAndValidate.listdir Examples.dictionary_on_disk)
    (ProcessAndValidate.read_excel Examples.dictionary_on_disk)
    (λ _ _, Ret Pandas.no_frame)
    (λ _, Ret [ Pandas.Frame ["Mes Reporte"; "Ciudad"; "Color"]
                  [[Pandas.CStr "enero"; Pandas.CStr "Toluca";
                    Pandas.CStr "rojo"]];
                Pandas.Frame ["CIUDAD"; "MES"; "Nivel Lesionados"]
                  [[Pandas.CStr "Leon"; Pandas.CStr "mayo";
                    Pandas.CStr "leve"]] ]).

(** A table in which two columns carry the label [hora]. *)
Definition repeated_hour : Pandas.frame :=
  Pandas.Frame ["edad"; "hora"; "hora"]
    [ [Pandas.CStr "41"; Pandas.CStr "10"; Pandas.CStr "x"];
      [Pandas.CStr "n/a"; Pandas.CStr "11"; Pandas.CStr "12"] ].

(** A table with a sentinel, a missing cell and a number. *)
Definition raw_table : Pandas.frame :=
  Pandas.Frame ["calle"; "hora"]
    [ [Pandas.CStr "\N"; Pandas.CNum 10];
      [Pandas.CNull; Pandas.CStr "\N"];
      [Pandas.CStr "Reforma"; Pandas.CNull] ].

End MoreExamples.

(** * Properties *)

Import Py Pandas Examples.

(** ** Lists and outcomes *)

Lemma for_each_Ret {A B} (f : A → outcome B) xs ys :
  for_each f xs = Ret ys → Forall2 (λ x y, f x = Ret y) xs ys.
Proof.
  revert ys. induction xs as [|x xs IH]; intros ys; simpl.
  - intros [= <-]. constructor.
  - destruct (f x) as [y|e] eqn:Hx; simpl; [|discriminate].
    destruct (for_each f xs) as [ys'|e] eqn:Hxs; simpl; [|discriminate].
    intros [= <-]. constructor; auto.
Qed.

Lemma for_each_all {A B} (f : A → outcome B) (g : A → B) xs :
  (∀ x, x ∈ xs → f x = Ret (g x)) → for_each f xs = Ret (g <$> xs).
Proof.
  induction xs as [|x xs IH]; intros Hall; simpl; [done|].
  rewrite Hall; [|by left]. simpl.
  rewrite IH; [done|]. intros y Hy. apply Hall. by right.
Qed.

Lemma zip_with_fmap_diag {A B C} (g : A → B → C) (f : A → B) (l : list A) :
  zip_with g l (f <$> l) = (λ x, g x (f x)) <$> l.
Proof. induction l as [|x l IH]; [done|]. csimpl. by f_equal. Qed.

(** ** The column normalizer *)

Section NormalizerFacts.
Import ProcessAndValidate.
Variable unidecode : string → string.

(** The normalizer on labels of the yearly files, for ASCII labels (which
    the transliteration leaves as they are). *)
Lemma clean_name_examples :
  clean_name id <$> ["Mes Reporte"; "Ciudad"; "Nivel Lesionados"; "HORA"]
  = ["mes"; "ciudad_municipio"; "nivel_lesion"; "hora"].
Proof. vm_compute. reflexivity. Qed.

(** C9. The column normalizer rewrites labels only: every row of the
    normalized table is the row of the input table at the same place,
    cell for cell, and no column is added or removed. *)
Theorem clean_column_names_keeps_cells (df : frame) :
  rows (clean_column_names unidecode df) = rows df
  ∧ length (columns (clean_column_names unidecode df)) = length (columns df)
  ∧ ∀ i j, cell_at j (default [] (rows (clean_column_names unidecode df) !! i))
           = cell_at j (default [] (rows df !! i)).
Proof.
  unfold clean_column_names; simpl. split_and!; [done| |done].
  by rewrite length_fmap.
Qed.
End NormalizerFacts.

(** ** Row-count validation *)

Section ValidationFacts.
Import ProcessAndValidate.

Lemma total_rows_sum (dfs : list frame) :
  total_rows dfs = sum_list ((λ df, length (rows df)) <$> dfs).
Proof.
  unfold total_rows. induction dfs as [|df dfs IH]; [done|].
  csimpl. by rewrite IH.
Qed.

(** C4. With [original] the sum of the row counts of the per-file tables
    and [final] the row count of the unified table, [validate_data]
    returns [True] exactly when the two are equal. It never raises: it
    returns after printing one line, the success line when they are
    equal and otherwise the discrepancy with both counts; the tables it
    was given are the same afterwards. *)
Theorem validate_data_is_diagnostic (v : validation) (original final : nat) :
  original = sum_list ((λ df, length (rows df)) <$> all_dfs v) →
  final = length (rows (df_final v)) →
  ∃ b : bool,
    validate_data v
    = (Ret b,
       Validation (all_dfs v) (df_final v)
         (out v ++ [Line (if b then "No rows were dropped during cleaning"
                          else "Rows were dropped during cleaning. Original: "
                               +:+ pretty original +:+ ", Final: "
                               +:+ pretty final)]))
    ∧ (b = true ↔ original = final).
Proof.
  intros -> ->.
  exists (bool_decide (total_rows (all_dfs v) = height (df_final v))).
  unfold validate_data, print, dropped_message.
  rewrite <- total_rows_sum. fold (height (df_final v)). split.
  - case_decide as Hrows.
    + by rewrite bool_decide_eq_true_2.
    + by rewrite bool_decide_eq_false_2.
  - apply bool_decide_eq_true.
Qed.

Lemma validate_data_is_diagnostic_witness :
  validate_data
    (Validation [table_2019; table_2020]
       (Frame ["ano"; "mes"]
          [[CStr "2019"; CStr "enero"]; [CStr "2020"; CStr "marzo"]]) [])
  = (Ret false,
     Validation [table_2019; table_2020]
       (Frame ["ano"; "mes"]
          [[CStr "2019"; CStr "enero"]; [CStr "2020"; CStr "marzo"]])
       [Line "Rows were dropped during cleaning. Original: 3, Final: 2"])
  ∧ validate_data
      (Validation [table_2019; table_2020]
         (Frame ["ano"; "mes"]
            [[CStr "2019"; CStr "enero"]; [CStr "2019"; CStr "mayo"];
             [CStr "2020"; CStr "marzo"]]) [])
    = (Ret true,
       Validation [table_2019; table_2020]
         (Frame ["ano"; "mes"]
            [[CStr "2019"; CStr "enero"]; [CStr "2019"; CStr "mayo"];
             [CStr "2020"; CStr "marzo"]])
         [Line "No rows were dropped during cleaning"]).
Proof.
  split.
  - destruct (validate_data_is_diagnostic
                (Validation [table_2019; table_2020]
                   (Frame ["ano"; "mes"]
                      [[CStr "2019"; CStr "enero"];
                       [CStr "2020"; CStr "marzo"]]) [])
                3 2 eq_refl eq_refl) as ([] & Hrun & Hb).
    + by destruct (proj1 Hb eq_refl).
    + etrans; [exact Hrun|]. vm_compute. reflexivity.
  - destruct (validate_data_is_diagnostic
                (Validation [table_2019; table_2020]
                   (Frame ["ano"; "mes"]
                      [[CStr "2019"; CStr "enero"]; [CStr "2019"; CStr "mayo"];
                       [CStr "2020"; CStr "marzo"]]) [])
                3 3 eq_refl eq_refl) as ([] & Hrun & Hb).
    + exact Hrun.
    + by destruct (proj2 Hb eq_refl).
Defined.
End ValidationFacts.

(** ** Polars columns *)

Section PolarsFacts.
Import Polars.

Lemma with_column_found name expr (df : Polars.frame) old :
  get_column name df = Ret old →
  with_column name expr df = (new ← expr old; mret (set_column name new df)).
Proof. unfold with_column. by intros ->. Qed.

Lemma get_set_column name (df : Polars.frame) old new :
  get_column name df = Ret old →
  get_column name (set_column name new df) = Ret new.
Proof.
  induction df as [|[n s] df IH]; simpl; [done|].
  case_decide as Hn; simpl.
  - intros _. by rewrite decide_True.
  - intros Hold. rewrite decide_False; auto.
Qed.

Lemma set_set_column name (df : Polars.frame) s1 s2 :
  set_column name s2 (set_column name s1 df) = set_column name s2 df.
Proof.
  induction df as [|[n s] df IH]; simpl; [done|].
  case_decide as Hn; simpl.
  - by rewrite decide_True.
  - rewrite decide_False; [|done]. by rewrite IH.
Qed.

Lemma str_replace_many_utf8 patterns replace_with vals :
  length patterns = length replace_with →
  str_replace_many patterns replace_with (Utf8 vals)
  = Ret (Utf8 (option_map (Str.replace_many patterns replace_with) <$> vals)).
Proof.
  intros Hlen. unfold str_replace_many.
  destruct replace_with as [|r [|r' more]].
  - by rewrite decide_True.
  - simpl in Hlen. by rewrite Hlen.
  - by rewrite decide_True.
Qed.

(** The distinct nulls of an integer column: one null when it has any. *)
Lemma distinct_nulls (vals : list (option Z)) :
  remove_dups (filter (λ v, is_null v) vals)
  = if decide (None ∈ vals) then [None] else [].
Proof.
  induction vals as [|[z|] vals IH].
  - rewrite decide_False; [done|]. by intros ?%elem_of_nil.
  - rewrite filter_cons_False; [|by simpl; intros []]. rewrite IH.
    destruct (decide (None ∈ vals)) as [Hin|Hout].
    + rewrite decide_True; [done|]. by right.
    + rewrite decide_False; [done|].
      intros [?|?]%elem_of_cons; [done|by apply Hout].
  - rewrite filter_cons_True; [|done].
    rewrite (decide_True (P := None ∈ None :: vals)); [|by left].
    cbn [remove_dups]. rewrite IH.
    destruct (decide (None ∈ vals)) as [Hin|Hout].
    + destruct (decide_rel _ _ _) as [_|Hn]; [done|].
      destruct Hn. apply list_elem_of_filter. by split.
    + destruct (decide_rel _ _ _) as [[_ ?]%list_elem_of_filter|_]; done.
Qed.
End PolarsFacts.

(** ** Text replacement *)

Section TextFacts.

Lemma contains_char_app c (a b : string) :
  Str.contains_char c (a +:+ b)
  = (Str.contains_char c a || Str.contains_char c b)%bool.
Proof.
  induction a as [|x a IH]; simpl; [done|].
  rewrite IH. by rewrite orb_assoc.
Qed.

Lemma first_match_rule rules s pat rep :
  Str.first_match rules s = Some (pat, rep) → (pat, rep) ∈ rules.
Proof.
  induction rules as [|[p r] rules IH]; simpl; [done|].
  destruct p as [|a p].
  - intros ?%IH. by right.
  - destruct (Str.startswith s (String a p)).
    + intros [= <- <-]. by left.
    + intros ?%IH. by right.
Qed.

(** A scan whose replacements hold no [c] adds no [c] to the text. *)
Lemma replace_scan_free c rules :
  (∀ pat rep, (pat, rep) ∈ rules → Str.contains_char c rep = false) →
  ∀ s skip, Str.contains_char c s = false →
            Str.contains_char c (Str.replace_scan rules skip s) = false.
Proof.
  intros Hrules s. induction s as [|x s IH]; intros skip; simpl; [done|].
  intros [Hx Hs]%orb_false_elim. destruct skip as [|k]; [|by apply IH].
  destruct (Str.first_match rules (String x s)) as [[pat rep]|] eqn:Hm.
  - rewrite contains_char_app. apply first_match_rule in Hm.
    rewrite (Hrules _ _ Hm). simpl. by apply IH.
  - simpl. rewrite Hx. simpl. by apply IH.
Qed.

Lemma from_line_end_free s :
  Str.contains_char Str.newline s = false → Str.from_line_end s = "".
Proof.
  induction s as [|x s IH]; simpl; [done|].
  intros [Hx Hs]%orb_false_elim. rewrite Hx. by apply IH.
Qed.

(** The pattern lists of the pipeline: no pattern is empty or occurs in
    another one of its list, so a leftmost scan and a search reporting the
    match that ends first find the same matches. *)
Lemma pipeline_patterns_contained_free :
  Str.contained_free CleaningAndExport.months_spanish = true
  ∧ Str.contained_free CleaningAndExport.months_english = true
  ∧ Str.contained_free ["Bajo"; "Alto"; "Medio"; "Sin "] = true
  ∧ Str.contained_free ["Low"; "High"; "Medium"; "No damage"] = true.
Proof. split_and!; vm_compute; reflexivity. Qed.

End TextFacts.

(** ** Month translation *)

Section MonthFacts.
Import Polars CleaningAndExport.

(** On a table whose [mes] column holds strings, [translate_months]
    returns the table with that column run through the month chain, and
    prints the fixed report when some value came out null. *)
Lemma translate_months_utf8 (pl_df : Polars.frame) vals (out : stdout) :
  get_column "mes" pl_df = Ret (Utf8 vals) →
  translate_months pl_df out
  = (Ret (set_column "mes"
            (Int64 ((λ v, v ≫= Spec.month_chain) <$> vals)) pl_df),
     out ++ (if decide (None ∈ (λ v, v ≫= Spec.month_chain) <$> vals)
             then Spec.invalid_months_report else [])).
Proof.
  intros Hmes. unfold translate_months.
  rewrite (with_column_found _ _ _ _ Hmes).
  unfold str_to_lowercase. cbn [str_map mbind outcome_bind bind].
  rewrite str_replace_many_utf8; [|done]. cbn [mbind outcome_bind bind mret outcome_ret].
  rewrite (with_column_found _ _ _ _ (get_set_column _ _ _ _ Hmes)).
  rewrite str_replace_many_utf8; [|done]. cbn [mbind outcome_bind bind mret outcome_ret].
  rewrite set_set_column.
  rewrite (with_column_found _ _ _ _ (get_set_column _ _ _ _ Hmes)).
  cbn [cast_int64 mbind outcome_bind bind mret outcome_ret].
  rewrite set_set_column.
  unfold null_values. rewrite (get_set_column _ _ _ _ Hmes).
  cbn [mbind outcome_bind bind mret outcome_ret].
  rewrite <- !list_fmap_compose.
  rewrite (list_fmap_ext _ (λ v, v ≫= Spec.month_chain) vals);
    [|by intros _ [s|] _].
  unfold series_height.
  rewrite distinct_nulls.
  destruct (decide (None ∈ _)); simpl; [done|].
  by rewrite app_nil_r.
Qed.
End MonthFacts.

Section MonthClaims.
Import Polars CleaningAndExport.

(** C3. Month translation lowercases the [mes] column, replaces each
    Spanish month name with the English name at the same index, replaces
    each English name with the number string at the same index, and casts
    to integer with what does not parse becoming null; the column
    ["enero", "diciembre", "ENERO", "xyz"] becomes [1, 12, 1, null]. *)
Theorem translate_months_chain :
  (∀ (pl_df : Polars.frame) vals (out : stdout),
     get_column "mes" pl_df = Ret (Utf8 vals) →
     (translate_months pl_df out).1
     = Ret (set_column "mes"
              (Int64 ((λ v, v ≫= Spec.month_chain) <$> vals)) pl_df))
  ∧ length months_spanish = length months_english
  ∧ length months_english = length numbers
  ∧ Str.replace_many months_spanish months_english <$> months_spanish
    = months_english
  ∧ Str.replace_many months_english numbers <$> months_english = numbers
  ∧ Str.parse_int64 <$> numbers = (λ i, Some (Z.of_nat i)) <$> seq 1 12
  ∧ Spec.month_chain <$> months_spanish
    = (λ i, Some (Z.of_nat i)) <$> seq 1 12
  ∧ (translate_months
       [("mes", Utf8 [Some "enero"; Some "diciembre"; Some "ENERO";
                      Some "xyz"])] []).1
    = Ret [("mes", Int64 [Some 1%Z; Some 12%Z; Some 1%Z; None])].
Proof.
  split; [|split_and!; vm_compute; reflexivity].
  intros pl_df vals out Hmes. by rewrite (translate_months_utf8 _ _ _ Hmes).
Qed.

Lemma translate_months_chain_witness :
  get_column "mes"
    [("ano", Int64 [Some 2019%Z; Some 2019%Z]);
     ("mes", Utf8 [Some "Marzo"; None])]
  = Ret (Utf8 [Some "Marzo"; None])
  ∧ (translate_months
       [("ano", Int64 [Some 2019%Z; Some 2019%Z]);
        ("mes", Utf8 [Some "Marzo"; None])] []).1
    = Ret [("ano", Int64 [Some 2019%Z; Some 2019%Z]);
           ("mes", Int64 [Some 3%Z; None])].
Proof.
  split; [reflexivity|].
  apply (proj1 translate_months_chain
           [("ano", Int64 [Some 2019%Z; Some 2019%Z]);
            ("mes", Utf8 [Some "Marzo"; None])]
           [Some "Marzo"; None] []).
  reflexivity.
Defined.

(** The report depends on the translated column only through whether it
    holds a null: it is the same for every table with such a value and
    never carries the text that failed. *)
Lemma translate_months_report (pl_df : Polars.frame) vals (out : stdout) :
  get_column "mes" pl_df = Ret (Utf8 vals) →
  (translate_months pl_df out).2 = out
  ∨ (translate_months pl_df out).2 = out ++ Spec.invalid_months_report.
Proof.
  intros Hmes. rewrite (translate_months_utf8 _ _ _ Hmes). simpl.
  case_decide; [by right|left]. by rewrite app_nil_r.
Qed.

(** C8. After the cast, the values of [mes] that ended up null should be
    reported with their original text. On the column ["enero", "xyz"]
    the report is the heading and a table holding one null: the text
    "xyz" is not in it, and the column ["enero", "abc"] gives the very
    same report. *)
Theorem translate_months_report_loses_text :
  translate_months [("mes", Utf8 [Some "enero"; Some "xyz"])] []
  = (Ret [("mes", Int64 [Some 1%Z; None])],
     [ Line "Values in 'mes' that couldn't be converted to integers:";
       Table [("mes", Int64 [None])] ])
  ∧ (translate_months [("mes", Utf8 [Some "enero"; Some "xyz"])] []).2
    = (translate_months [("mes", Utf8 [Some "enero"; Some "abc"])] []).2.
Proof. split; vm_compute; reflexivity. Qed.
End MonthClaims.

(** ** Damage-level translation *)

Section DamageFacts.
Import Polars CleaningAndExport.

Lemma process_damage_levels_utf8 (pl_df : Polars.frame) vals :
  get_column "nivel_dano_vehiculo" pl_df = Ret (Utf8 vals) →
  process_damage_levels pl_df
  = Ret (set_column "nivel_dano_vehiculo"
           (Int64 ((λ v, v ≫= Spec.damage_chain) <$> vals)) pl_df).
Proof.
  intros Hcol. unfold process_damage_levels.
  rewrite (with_column_found _ _ _ _ Hcol).
  rewrite str_replace_many_utf8; [|done].
  unfold str_replace_to_line_end.
  cbn [str_map mbind outcome_bind bind mret outcome_ret].
  rewrite str_replace_many_utf8; [|done].
  cbn [str_map cast_int64 mbind outcome_bind bind mret outcome_ret].
  rewrite <- !list_fmap_compose.
  by rewrite (list_fmap_ext _ (λ v, v ≫= Spec.damage_chain) vals);
    [|by intros _ [s|] _].
Qed.

(** Whatever follows "Sin " on the same line is dropped by the two
    collapse steps. *)
Lemma damage_chain_sin (tail : string) :
  Str.contains_char Str.newline tail = false →
  Spec.damage_chain ("Sin " +:+ tail) = Some 1%Z.
Proof.
  intros Hline. unfold Spec.damage_chain, Str.replace_many.
  set (rules := zip ["Bajo"; "Alto"; "Medio"; "Sin "]
                    ["Low"; "High"; "Medium"; "No damage"]).
  assert (Hscan : Str.replace_scan rules 0 ("Sin " +:+ tail)
                  = "No damage" +:+ Str.replace_scan rules 0 tail)
    by reflexivity.
  rewrite Hscan.
  assert (Hcollapse : ∀ rest,
            Str.replace_to_line_end "No damage" "No damage"
              ("No damage" +:+ rest)
            = "No damage" +:+ Str.from_line_end rest) by reflexivity.
  rewrite Hcollapse, from_line_end_free; [reflexivity|].
  apply replace_scan_free; [|done].
  intros pat rep Hin. unfold rules in Hin. simpl in Hin.
  repeat (apply elem_of_cons in Hin as [[= -> ->]|Hin]; [reflexivity|]).
  by apply elem_of_nil in Hin.
Qed.
End DamageFacts.

Section DamageClaims.
Import Polars CleaningAndExport.

(** C1, as stated, fails: on the column
    ["Bajo", "Alto daño total", "Medio", "Sin daño", "desconocido"]
    the result is not [2, 4, 3, 1, null]. *)
Lemma process_damage_levels_not_as_stated :
  process_damage_levels [("nivel_dano_vehiculo", Utf8 damage_example)]
  ≠ Ret [("nivel_dano_vehiculo",
          Int64 [Some 2%Z; Some 4%Z; Some 3%Z; Some 1%Z; None])].
Proof. vm_compute. discriminate. Qed.

(** C1, amended. On every table with a string column
    [nivel_dano_vehiculo] the translation applies the ordered chain
    (descriptors to English tokens, collapse of a "No damage" variant,
    tokens to "2", "4", "3", "1", collapse of a "1" variant, integer cast
    with null for what does not parse). The four bare descriptors give
    1, 2, 3 and 4, and what follows "Sin " on its line is dropped. The
    column ["Bajo", "Alto daño total", "Medio", "Sin daño", "desconocido"]
    becomes [2, null, 3, 1, null]. *)
Theorem process_damage_levels_chain :
  (∀ (pl_df : Polars.frame) vals,
     get_column "nivel_dano_vehiculo" pl_df = Ret (Utf8 vals) →
     process_damage_levels pl_df
     = Ret (set_column "nivel_dano_vehiculo"
              (Int64 ((λ v, v ≫= Spec.damage_chain) <$> vals)) pl_df))
  ∧ Spec.damage_chain <$> ["Sin "; "Bajo"; "Medio"; "Alto"]
    = [Some 1%Z; Some 2%Z; Some 3%Z; Some 4%Z]
  ∧ (∀ tail, Str.contains_char Str.newline tail = false →
             Spec.damage_chain ("Sin " +:+ tail) = Some 1%Z)
  ∧ process_damage_levels [("nivel_dano_vehiculo", Utf8 damage_example)]
    = Ret [("nivel_dano_vehiculo",
            Int64 [Some 2%Z; None; Some 3%Z; Some 1%Z; None])].
Proof.
  split_and!.
  - apply process_damage_levels_utf8.
  - vm_compute; reflexivity.
  - apply damage_chain_sin.
  - vm_compute; reflexivity.
Qed.

Lemma process_damage_levels_chain_witness :
  (get_column "nivel_dano_vehiculo"
     [("nivel_dano_vehiculo", Utf8 [Some "Alto"; None])]
   = Ret (Utf8 [Some "Alto"; None])
   ∧ process_damage_levels
       [("nivel_dano_vehiculo", Utf8 [Some "Alto"; None])]
     = Ret [("nivel_dano_vehiculo", Int64 [Some 4%Z; None])])
  ∧ (Str.contains_char Str.newline "daño parcial" = false
     ∧ Spec.damage_chain ("Sin " +:+ "daño parcial") = Some 1%Z).
Proof.
  split; (split; [reflexivity|]).
  - apply (proj1 process_damage_levels_chain
             [("nivel_dano_vehiculo", Utf8 [Some "Alto"; None])]
             [Some "Alto"; None]).
    reflexivity.
  - apply (proj1 (proj2 (proj2 process_damage_levels_chain)) "daño parcial").
    reflexivity.
Defined.
End DamageClaims.

(** ** Export *)

Section ExportFacts.
Import CleaningAndExport.

(** Once the directory exists the exporter returns normally, whatever
    the format tag and whatever the writers do. *)
Lemma export_dataframe_returns (io : writers) df file_path format options
    (out : stdout) :
  mkdir_parent io file_path = Ret () →
  ∃ out', export_dataframe io df file_path format options out
          = (Ret (), out').
Proof.
  intros Hdir. unfold export_dataframe. rewrite Hdir.
  destruct (export_body _ _ _ _ _ _) as [[[]|e] out']; eauto.
Qed.

(** An unsupported format tag: the [ValueError] raised in the [try] is
    caught by its [except Exception] and printed. *)
Lemma export_dataframe_unsupported (io : writers) df file_path format
    options (out : stdout) :
  mkdir_parent io file_path = Ret () →
  ¬ Spec.supported format →
  export_dataframe io df file_path format options out
  = (Ret (),
     out ++ [Line ("Error exporting DataFrame: Unsupported format: "
                    +:+ format)]).
Proof.
  intros Hdir Hformat. unfold export_dataframe, export_body. rewrite Hdir.
  unfold Spec.supported in Hformat.
  rewrite !decide_False by tauto. reflexivity.
Qed.

(** A failing writer of a supported format is caught and printed. *)
Lemma export_dataframe_write_failure (io : writers) df file_path format
    options (out : stdout) e :
  mkdir_parent io file_path = Ret () →
  Spec.supported format →
  (∀ settings, write_csv io df file_path settings = Raise e) →
  (∀ settings, write_parquet io df file_path settings = Raise e) →
  (∀ settings, write_json io df file_path settings = Raise e) →
  export_dataframe io df file_path format options out
  = (Ret (), out ++ [Line ("Error exporting DataFrame: " +:+ exn_str e)]).
Proof.
  intros Hdir Hformat Hcsv Hparquet Hjson.
  unfold export_dataframe, export_body. rewrite Hdir.
  destruct Hformat as [Hf|[Hf|Hf]]; subst format.
  - rewrite decide_True by done. by rewrite Hcsv.
  - rewrite decide_False by done. rewrite decide_True by done.
    by rewrite Hparquet.
  - rewrite !decide_False by done. rewrite decide_True by done.
    by rewrite Hjson.
Qed.

(** C7. The exporter should raise to its caller on a format tag outside
    "csv", "parquet", "json". With the tag "xml" it returns normally
    instead and only prints the message of the [ValueError]. *)
Theorem export_dataframe_swallows_unsupported_format :
  export_dataframe working_writers [] "out/crashes.xml" "xml" None []
  = (Ret (),
     [Line "Error exporting DataFrame: Unsupported format: xml"]).
Proof.
  apply (export_dataframe_unsupported working_writers [] "out/crashes.xml"
           "xml" None []); [done|]. by intros [|[|]].
Qed.
End ExportFacts.

(** ** The header resolver *)

Section HeaderFacts.
Import ProcessAndValidate.

Lemma index_of_Some name headers i :
  index_of name headers = Some i →
  headers !! i = Some (CStr name) ∧ i < length headers.
Proof.
  revert i. induction headers as [|x headers IH]; intros i; simpl; [done|].
  destruct (is_str name x) eqn:Hx.
  - intros [= <-]. split; [|simpl; lia].
    destruct x as [|s|q]; try done. simpl in Hx.
    apply bool_decide_eq_true in Hx. by subst.
  - destruct (index_of name headers) as [k|]; [|done].
    intros [= <-]. destruct (IH k eq_refl). split; [done|simpl; lia].
Qed.

Lemma list_insert_at_spec {A} (i : nat) (x : A) (xs : list A) :
  (i ≤ length xs)%nat →
  list_insert_at i x xs !! i = Some x
  ∧ delete i (list_insert_at i x xs) = xs
  ∧ length (list_insert_at i x xs) = S (length xs).
Proof.
  intros Hi. unfold list_insert_at. split_and!.
  - rewrite lookup_app_r; rewrite length_take; [|lia].
    by replace (i - i `min` length xs) with 0 by lia.
  - pose proof (delete_middle (take i xs) (drop i xs) x) as Hmid.
    rewrite length_take, Nat.min_l, take_drop in Hmid; [done|lia].
  - rewrite length_app, length_take. simpl. rewrite length_drop. lia.
Qed.
End HeaderFacts.

Section HeaderClaims.
Import ProcessAndValidate.

Lemma index_of_absent name headers :
  CStr name ∉ headers → index_of name headers = None.
Proof.
  induction headers as [|x headers IH]; simpl; [done|].
  intros Hout. destruct (is_str name x) eqn:Hx.
  - destruct Hout. destruct x as [|s|q]; try done. simpl in Hx.
    apply bool_decide_eq_true in Hx. subst. by left.
  - rewrite IH; [done|]. intros Hin. apply Hout. by right.
Qed.

Lemma no_dictionary_file names :
  Forall (λ f, Str.startswith f dictionary_prefix = false) names →
  filter (λ f, Str.startswith f dictionary_prefix = true) names = [].
Proof.
  induction 1 as [|f names Hf _ IH]; [done|].
  rewrite filter_cons_False; [done|]. by rewrite Hf.
Qed.

(** C6. The header resolver returns the first column of the reference
    workbook, in order, with "Día Numero" inserted immediately after
    "Mes Reporte"; it raises when the data-dictionary folder holds no
    file with the dictionary prefix (or cannot be listed) and when the
    column lacks "Mes Reporte". *)
Theorem read_headers_contract (src : sources) (base_dir : string) :
  let dict_folder := path_join base_dir "data-dictionary" in
  (∀ names dict_file others table headers i,
     listdir src dict_folder = Ret names →
     filter (λ f, Str.startswith f dictionary_prefix = true) names
     = dict_file :: others →
     read_excel src (path_join dict_folder dict_file) = Ret table →
     first_column table = Ret headers →
     index_of "Mes Reporte" headers = Some i →
     ∃ result,
       read_headers src base_dir = Ret result
       ∧ result = take (S i) headers ++ day_number_field :: drop (S i) headers
       ∧ result !! i = Some month_field
       ∧ result !! S i = Some day_number_field
       ∧ delete (S i) result = headers)
  ∧ (∀ names,
       listdir src dict_folder = Ret names →
       Forall (λ f, Str.startswith f dictionary_prefix = false) names →
       raises (read_headers src base_dir))
  ∧ (raises (listdir src dict_folder) → raises (read_headers src base_dir))
  ∧ (∀ names dict_file others table headers,
       listdir src dict_folder = Ret names →
       filter (λ f, Str.startswith f dictionary_prefix = true) names
       = dict_file :: others →
       read_excel src (path_join dict_folder dict_file) = Ret table →
       first_column table = Ret headers →
       month_field ∉ headers →
       raises (read_headers src base_dir)).
Proof.
  intros dict_folder. split_and!.
  - intros names dict_file others table headers i Hdir Hfile Hread Hcol Hidx.
    destruct (index_of_Some _ _ _ Hidx) as [Hmonth Hlt].
    destruct (list_insert_at_spec (S i) day_number_field headers)
      as (Hday & Hdel & _); [lia|].
    exists (list_insert_at (S i) day_number_field headers).
    split_and!; [|done| |done|done].
    + unfold read_headers. fold dict_folder. rewrite Hdir. simpl.
      rewrite Hfile, Hread. simpl. rewrite Hcol. simpl. by rewrite Hidx.
    + unfold list_insert_at. rewrite lookup_app_l; [|rewrite length_take; lia].
      rewrite lookup_take_lt; [done|lia].
  - intros names Hdir Hnone. unfold read_headers. fold dict_folder.
    rewrite Hdir. simpl. rewrite no_dictionary_file; [|done]. by eexists.
  - intros [e He]. unfold read_headers. fold dict_folder. rewrite He.
    by exists e.
  - intros names dict_file others table headers Hdir Hfile Hread Hcol Hout.
    unfold read_headers. fold dict_folder. rewrite Hdir. simpl.
    rewrite Hfile, Hread. simpl. rewrite Hcol. simpl.
    rewrite index_of_absent; [|done]. by eexists.
Qed.

Lemma read_headers_contract_witness :
  read_headers dictionary_on_disk "accident_data"
  = Ret [CStr "Siniestro"; CStr "Mes Reporte"; CStr "Día Numero"; CStr "Hora"]
  ∧ raises (read_headers dictionary_on_disk "elsewhere").
Proof.
  split.
  - destruct (proj1 (read_headers_contract dictionary_on_disk "accident_data")
                ["notes.txt"; "diccionario-percances-viales-axa-1.xlsx"]
                "diccionario-percances-viales-axa-1.xlsx" []
                (Frame ["Campo"]
                   [[CStr "Siniestro"]; [CStr "Mes Reporte"]; [CStr "Hora"]])
                [CStr "Siniestro"; CStr "Mes Reporte"; CStr "Hora"] 1
                eq_refl eq_refl eq_refl eq_refl eq_refl)
      as (result & Hrun & Hresult & _).
    rewrite Hrun, Hresult. reflexivity.
  - apply (proj1 (proj2 (proj2
             (read_headers_contract dictionary_on_disk "elsewhere")))).
    eexists. reflexivity.
Defined.
End HeaderClaims.

(** ** Selecting columns *)

Section SelectionFacts.

Lemma positions_from_absent k c (labels : list string) :
  c ∉ labels → positions_from k c labels = [].
Proof.
  revert k. induction labels as [|x labels IH]; intros k Hout; simpl; [done|].
  rewrite decide_False.
  - apply IH. intros Hin. apply Hout. by right.
  - intros ->. apply Hout. by left.
Qed.

Lemma positions_from_unique k c (labels : list string) :
  NoDup labels → c ∈ labels →
  ∃ j, positions_from k c labels = [k + j] ∧ labels !! j = Some c.
Proof.
  intros Hnodup. revert k.
  induction Hnodup as [|x labels Hx Hnodup IH]; intros k Hin.
  - by apply elem_of_nil in Hin.
  - simpl. destruct (decide (x = c)) as [->|Hne].
    + exists 0. rewrite positions_from_absent; [|done].
      split; [f_equal; lia|done].
    + apply elem_of_cons in Hin as [->|Hin]; [done|].
      destruct (IH (S k) Hin) as (j & Hpos & Hj).
      exists (S j). split; [rewrite Hpos; f_equal; lia|done].
Qed.

Lemma positions_from_present k c (labels : list string) :
  c ∈ labels → positions_from k c labels ≠ [].
Proof.
  revert k. induction labels as [|x labels IH]; intros k Hin.
  - by apply elem_of_nil in Hin.
  - simpl. destruct (decide (x = c)) as [->|Hne]; [done|].
    apply elem_of_cons in Hin as [->|Hin]; [done|]. by apply IH.
Qed.

(** Every row survives a selection of columns. *)
Lemma getitem_list_height (df p : frame) cols :
  getitem_list df cols = Ret p → height p = height df.
Proof.
  unfold getitem_list.
  destruct (for_each (locate (columns df)) cols) as [found|e]; simpl;
    [|done].
  intros [= <-]. unfold height; simpl. by rewrite length_fmap.
Qed.

Lemma concat_singletons {A B} (f : A → B) (l : list A) :
  List.concat ((λ x, [f x]) <$> l) = f <$> l.
Proof. induction l as [|x l IH]; [done|]. csimpl. by f_equal. Qed.

(** With distinct labels, selecting present labels lays every row out
    on them. *)
Lemma getitem_list_unique (df : frame) cols :
  NoDup (columns df) →
  (∀ c, c ∈ cols → c ∈ columns df) →
  getitem_list df cols = Ret (Frame cols (reindex_row df cols <$> rows df)).
Proof.
  intros Hnodup Hall. unfold getitem_list.
  set (pos := λ c, match positions c (columns df) with
                   | i :: _ => i
                   | [] => 0
                   end).
  assert (Hpos : ∀ c, c ∈ cols →
              positions c (columns df) = [pos c]
              ∧ columns df !! pos c = Some c).
  { intros c Hc. unfold pos.
    destruct (positions_from_unique 0 c _ Hnodup (Hall c Hc))
      as (j & Hj & Hlabel).
    unfold positions. rewrite Hj. simpl. done. }
  rewrite (for_each_all _ (λ c, [pos c])).
  2:{ intros c Hc. unfold locate. by rewrite (proj1 (Hpos c Hc)). }
  simpl. rewrite concat_singletons. f_equal. f_equal.
  - rewrite <- list_fmap_compose.
    rewrite <- (list_fmap_id cols) at 2.
    apply list_fmap_ext. intros k c Hk. simpl. unfold label_at.
    rewrite (proj2 (Hpos c ltac:(by eapply list_elem_of_lookup_2))).
    done.
  - apply list_fmap_ext. intros k row _. unfold reindex_row.
    rewrite <- list_fmap_compose.
    apply list_fmap_ext. intros k' c Hk'. simpl.
    by rewrite (proj1 (Hpos c ltac:(by eapply list_elem_of_lookup_2))).
Qed.

End SelectionFacts.

(** ** Stacking tables *)

Section ConcatFacts.
Import ProcessAndValidate.

Lemma total_rows_concat (parts : list frame) :
  length (List.concat (rows <$> parts)) = total_rows parts.
Proof.
  induction parts as [|f parts IH]; [done|].
  csimpl. rewrite length_app, IH. done.
Qed.

Lemma total_rows_reindexed (parts : list frame) target :
  length (List.concat ((λ g, reindex_row g target <$> rows g) <$> parts))
  = total_rows parts.
Proof.
  induction parts as [|f parts IH]; [done|].
  csimpl. rewrite length_app, length_fmap, IH. done.
Qed.

(** Stacking keeps every row of every part. *)
Lemma concat_height (parts : list frame) (f : frame) :
  concat parts = Ret f → height f = total_rows parts.
Proof.
  unfold concat. destruct parts as [|g parts]; [done|].
  destruct (same_columns g (g :: parts)).
  - intros [= <-]. exact (total_rows_concat (g :: parts)).
  - destruct (all_unique (g :: parts)); [|done].
    intros [= <-]. exact (total_rows_reindexed (g :: parts) _).
Qed.

Lemma total_rows_Forall2 (dfs parts : list frame) :
  Forall2 (λ df p, height p = height df) dfs parts →
  total_rows parts = total_rows dfs.
Proof.
  induction 1 as [|df p dfs parts Hh _ IH]; [done|].
  unfold total_rows in *. csimpl. by rewrite Hh, IH.
Qed.

(** Parts that all carry the labels [cols] are stacked as they are. *)
Lemma concat_same_columns cols (parts : list frame) :
  parts ≠ [] →
  Forall (λ p, columns p = cols) parts →
  concat parts = Ret (Frame cols (List.concat (rows <$> parts))).
Proof.
  intros Hne Hall. unfold concat. destruct parts as [|g parts]; [done|].
  assert (Hsame : same_columns g (g :: parts) = true).
  { unfold same_columns. apply forallb_forall. intros p Hp.
    apply bool_decide_eq_true.
    apply list_elem_of_In in Hp.
    rewrite Forall_forall in Hall.
    by rewrite (Hall p Hp), (Hall g ltac:(by left)). }
  rewrite Hsame. f_equal. f_equal.
  rewrite Forall_forall in Hall. apply Hall. by left.
Qed.

Section WithOrder.
Variable list_of : gset string → list string.

(** Whenever the unified table is built it has every input row. *)
Lemma concat_common_columns_height (dfs : list frame) (f : frame) :
  concat_common_columns list_of dfs = Ret f →
  height f = total_rows dfs.
Proof.
  unfold concat_common_columns.
  destruct (get_common_columns list_of dfs) as [cols|e]; [|done]. simpl.
  destruct (for_each _ dfs) as [parts|e] eqn:Hparts; [|done]. simpl.
  intros Hcat. rewrite (concat_height _ _ Hcat).
  apply total_rows_Forall2.
  apply for_each_Ret in Hparts.
  eapply Forall2_impl; [exact Hparts|].
  intros df p Hp. simpl in Hp. by eapply getitem_list_height.
Qed.
End WithOrder.

End ConcatFacts.

(** ** The common columns *)

Section CommonColumnFacts.
Import ProcessAndValidate.

Lemma elem_of_foldl_intersection (s : gset string) more x :
  x ∈ foldl (∩) s more ↔ x ∈ s ∧ ∀ t, t ∈ more → x ∈ t.
Proof.
  revert s. induction more as [|t more IH]; intros s; simpl.
  - split; [|by intros [? _]]. intros ?. split; [done|].
    by intros t ?%elem_of_nil.
  - rewrite IH, elem_of_intersection. split.
    + intros [[Hs Ht] Hmore]. split; [done|].
      intros u [->|Hu]%elem_of_cons; auto.
    + intros [Hs Hall]. split_and!.
      * done.
      * apply Hall. by left.
      * intros u Hu. apply Hall. by right.
Qed.

Lemma elem_of_set_intersection (sets : list (gset string)) common x :
  set_intersection sets = Ret common →
  x ∈ common ↔ ∀ t, t ∈ sets → x ∈ t.
Proof.
  destruct sets as [|s more]; simpl; [done|]. intros [= <-].
  rewrite elem_of_foldl_intersection. split.
  - intros [Hs Hall] t [->|Ht]%elem_of_cons; auto.
  - intros Hall. split; [apply Hall; by left|].
    intros t Ht. apply Hall. by right.
Qed.

(** The intersection does not depend on the order of the sets. *)
Lemma set_intersection_perm (sets sets' : list (gset string)) :
  sets ≡ₚ sets' → set_intersection sets = set_intersection sets'.
Proof.
  intros Hperm.
  destruct sets as [|s more], sets' as [|s' more'].
  - done.
  - by apply Permutation_nil_l in Hperm.
  - by apply Permutation_nil_r in Hperm.
  - simpl. f_equal. apply set_eq. intros x.
    rewrite !elem_of_foldl_intersection.
    assert (Hiff : ∀ a b : list (gset string), a ≡ₚ b →
              (∀ t, t ∈ a → x ∈ t) → ∀ t, t ∈ b → x ∈ t).
    { intros a b Hab Ha t Ht. apply Ha. by rewrite Hab. }
    split; intros [Hs Hall].
    + assert (Hx : ∀ t, t ∈ s' :: more' → x ∈ t).
      { apply (Hiff (s :: more)); [done|].
        intros t [->|Ht]%elem_of_cons; auto. }
      split; [apply Hx; by left|]. intros t Ht. apply Hx. by right.
    + assert (Hx : ∀ t, t ∈ s :: more → x ∈ t).
      { apply (Hiff (s' :: more')); [done|].
        intros t [->|Ht]%elem_of_cons; auto. }
      split; [apply Hx; by left|]. intros t Ht. apply Hx. by right.
Qed.

Section WithOrder.
Variable list_of : gset string → list string.
Hypothesis list_of_lists : lists_sets list_of.

(** The common columns: distinct labels, exactly those every table
    carries. *)
Lemma get_common_columns_spec (dfs : list frame) :
  dfs ≠ [] →
  ∃ common,
    set_intersection ((λ df, list_to_set (columns df)) <$> dfs)
    = Ret common
    ∧ get_common_columns list_of dfs = Ret (list_of common)
    ∧ NoDup (list_of common)
    ∧ ∀ c, c ∈ list_of common ↔ ∀ df, df ∈ dfs → c ∈ columns df.
Proof.
  intros Hne. unfold get_common_columns.
  destruct dfs as [|d dfs]; [done|].
  eexists. split; [reflexivity|]. split; [reflexivity|].
  destruct (list_of_lists (foldl (∩) (list_to_set (columns d))
              ((λ df, list_to_set (columns df)) <$> dfs)))
    as [Hnodup Hin].
  split; [done|]. intros c. rewrite Hin, elem_of_foldl_intersection.
  rewrite elem_of_list_to_set. split.
  - intros [Hd Hall] df [->|Hdf]%elem_of_cons; [done|].
    apply (elem_of_list_to_set (C := gset string)).
    apply Hall. apply list_elem_of_fmap. by exists df.
  - intros Hall. split; [apply Hall; by left|].
    intros t (df & -> & Hdf)%list_elem_of_fmap.
    apply elem_of_list_to_set. apply Hall. by right.
Qed.

(** With distinct labels in every table the unified table is built:
    it carries the common columns and every table's rows laid out on
    them, in table order. *)
Lemma concat_common_columns_unique (dfs : list frame) :
  dfs ≠ [] →
  Forall (λ df, NoDup (columns df)) dfs →
  ∃ cols,
    get_common_columns list_of dfs = Ret cols
    ∧ NoDup cols
    ∧ (∀ c, c ∈ cols ↔ ∀ df, df ∈ dfs → c ∈ columns df)
    ∧ concat_common_columns list_of dfs
      = Ret (Frame cols
               (List.concat
                  ((λ df, reindex_row df cols <$> rows df) <$> dfs))).
Proof.
  intros Hne Hunique.
  destruct (get_common_columns_spec dfs Hne)
    as (common & _ & Hcols & Hnodup & Hin).
  exists (list_of common). split_and!; [done..|].
  unfold concat_common_columns. rewrite Hcols. simpl.
  rewrite (for_each_all _
             (λ df, Frame (list_of common)
                      (reindex_row df (list_of common) <$> rows df))).
  2:{ intros df Hdf. apply getitem_list_unique.
      - rewrite Forall_forall in Hunique. by apply Hunique.
      - intros c Hc. by apply Hin. }
  simpl. rewrite (concat_same_columns (list_of common)).
  - by rewrite <- list_fmap_compose.
  - by destruct dfs.
  - apply Forall_fmap, Forall_forall. by intros df _.
Qed.
End WithOrder.

End CommonColumnFacts.

(** ** Rows as records *)

Section RecordFacts.
Import ProcessAndValidate.

Lemma records_stacked cols (dfs : list frame) :
  records (Frame cols
             (List.concat ((λ df, reindex_row df cols <$> rows df) <$> dfs)))
  = dfs ≫= Spec.projected_records cols.
Proof.
  unfold records; simpl.
  induction dfs as [|df dfs IH]; [done|].
  csimpl. rewrite fmap_app, IH. f_equal.
  unfold Spec.projected_records. by rewrite <- list_fmap_compose.
Qed.

(** The record of a row laid out on distinct labels does not depend on
    the order of the labels. *)
Lemma record_reindexed_perm (df : frame) cols cols' row :
  NoDup cols → cols ≡ₚ cols' →
  record cols (reindex_row df cols row)
  = record cols' (reindex_row df cols' row).
Proof.
  intros Hnodup Hperm. unfold record, reindex_row.
  rewrite !(zip_with_fmap_diag pair).
  apply list_to_map_proper.
  - rewrite <- list_fmap_compose.
    by rewrite (list_fmap_ext _ id cols), list_fmap_id; [|done].
  - by apply fmap_Permutation.
Qed.

Lemma projected_records_perm cols cols' (dfs dfs' : list frame) :
  NoDup cols → cols ≡ₚ cols' → dfs ≡ₚ dfs' →
  dfs ≫= Spec.projected_records cols ≡ₚ dfs' ≫= Spec.projected_records cols'.
Proof.
  intros Hnodup Hcols Hdfs. rewrite Hdfs.
  clear Hdfs dfs. induction dfs' as [|df dfs IH]; [done|].
  csimpl. rewrite IH. f_equiv.
  unfold Spec.projected_records.
  erewrite list_fmap_ext; [done|].
  intros k row _. simpl. by apply record_reindexed_perm.
Qed.

(** [list(s)] as stdpp enumerates a set, and the same in reverse. *)
Lemma elements_lists_sets : lists_sets elements.
Proof.
  intros s. split; [apply NoDup_elements|].
  intros x. apply elem_of_elements.
Qed.

Lemma reverse_elements_lists_sets : lists_sets (reverse ∘ elements).
Proof.
  intros s. simpl. split; [rewrite reverse_Permutation; apply NoDup_elements|].
  intros x. by rewrite elem_of_reverse, elem_of_elements.
Qed.
End RecordFacts.

(** ** Schema reconciliation *)

Section ReconcilerClaims.
Import ProcessAndValidate.

(** A table in which two columns carry the same label cannot be stacked
    with a table that has the label once: pandas refuses to lay it out on
    the union of the labels, so no unified table is built and
    [validate_data] is never reached. *)
Lemma concat_common_columns_repeated_label :
  concat_common_columns elements
    [ Frame ["mes"; "mes"] [[CStr "enero"; CStr "1"]];
      Frame ["mes"] [[CStr "mayo"]] ]
  = Raise (InvalidIndexError
             "Reindexing only valid with uniquely valued Index objects").
Proof. vm_compute. reflexivity. Qed.

(** C5. For every list of per-file tables and every permutation of it,
    the common column set is the same, and (with distinct labels in each
    table) projecting every table to it and stacking gives the same
    multiset of rows: the rows of each table in their order, table after
    table, so that table order only moves rows. With no table at all both
    orders fail alike. *)
Theorem projection_commutes_with_table_order
    (list_of list_of' : gset string → list string) (dfs dfs' : list frame) :
  lists_sets list_of → lists_sets list_of' →
  dfs ≡ₚ dfs' →
  (dfs = [] →
   raises (concat_common_columns list_of dfs)
   ∧ raises (concat_common_columns list_of' dfs'))
  ∧ (dfs ≠ [] →
     ∃ cols cols',
       get_common_columns list_of dfs = Ret cols
       ∧ get_common_columns list_of' dfs' = Ret cols'
       ∧ list_to_set cols =@{gset string} list_to_set cols'
       ∧ (Forall (λ df, NoDup (columns df)) dfs →
          ∃ df_final df_final',
            concat_common_columns list_of dfs = Ret df_final
            ∧ concat_common_columns list_of' dfs' = Ret df_final'
            ∧ records df_final = dfs ≫= Spec.projected_records cols
            ∧ records df_final' = dfs' ≫= Spec.projected_records cols'
            ∧ records df_final ≡ₚ records df_final')).
Proof.
  intros Hlist Hlist' Hperm. split.
  - intros ->. apply Permutation_nil_l in Hperm. subst dfs'.
    split; eexists; reflexivity.
  - intros Hne.
    assert (Hne' : dfs' ≠ []).
    { intros ->. by apply Permutation_nil_r in Hperm. }
    destruct (get_common_columns_spec list_of Hlist dfs Hne)
      as (common & _ & Hcols & Hnodup & Hin).
    destruct (get_common_columns_spec list_of' Hlist' dfs' Hne')
      as (common' & _ & Hcols' & Hnodup' & Hin').
    assert (Hsame : list_of common ≡ₚ list_of' common').
    { apply NoDup_Permutation; [done..|]. intros c.
      rewrite Hin, Hin'. by setoid_rewrite Hperm. }
    exists (list_of common), (list_of' common').
    split_and!; [done|done| |].
    + apply set_eq. intros c. rewrite !elem_of_list_to_set.
      by rewrite Hsame.
    + intros Hunique.
      assert (Hunique' : Forall (λ df, NoDup (columns df)) dfs')
        by by rewrite <- Hperm.
      destruct (concat_common_columns_unique list_of Hlist dfs Hne Hunique)
        as (cols & Hc & _ & _ & Hcat).
      destruct (concat_common_columns_unique list_of' Hlist' dfs' Hne' Hunique')
        as (cols' & Hc' & _ & _ & Hcat').
      rewrite Hcols in Hc. rewrite Hcols' in Hc'.
      injection Hc as <-. injection Hc' as <-.
      eexists _, _. split_and!; [exact Hcat|exact Hcat'| | |].
      * apply records_stacked.
      * apply records_stacked.
      * rewrite !records_stacked. by apply projected_records_perm.
Qed.

Lemma projection_commutes_with_table_order_witness :
  ∃ df_final df_final',
    concat_common_columns elements [table_2019; table_2020] = Ret df_final
    ∧ concat_common_columns (reverse ∘ elements) [table_2020; table_2019]
      = Ret df_final'
    ∧ records df_final ≡ₚ records df_final'.
Proof.
  assert (Hperm : [table_2019; table_2020] ≡ₚ [table_2020; table_2019])
    by apply perm_swap.
  assert (Hunique : Forall (λ df, NoDup (columns df))
                      [table_2019; table_2020])
    by compute_done.
  destruct (proj2 (projection_commutes_with_table_order
                     elements (reverse ∘ elements)
                     [table_2019; table_2020] [table_2020; table_2019]
                     elements_lists_sets reverse_elements_lists_sets
                     Hperm))
    as (cols & cols' & _ & _ & _ & Hbuilt); [done|].
  destruct (Hbuilt Hunique)
    as (df_final & df_final' & Hcat & Hcat' & _ & _ & Hrows).
  exists df_final, df_final'. split_and!; assumption.
Defined.

(** C10. Whenever the unified table is built from a list of per-file
    tables, its row count is the sum of their row counts, so
    [validate_data] run on the pipeline's own output returns [True] and
    prints the success line, never the mismatch; and for a nonempty list
    of tables (with distinct labels in each) the unified table is built. *)
Theorem unified_table_keeps_every_row
    (list_of : gset string → list string) (dfs : list frame) (out : stdout) :
  (∀ df_final,
     concat_common_columns list_of dfs = Ret df_final →
     height df_final = total_rows dfs
     ∧ validate_data (Validation dfs df_final out)
       = (Ret true,
          Validation dfs df_final
            (out ++ [Line "No rows were dropped during cleaning"])))
  ∧ (∀ unidecode src base_dir df_final all_dfs,
       process_and_clean_data list_of unidecode src base_dir
       = Ret (df_final, all_dfs) →
       (validate_data (Validation all_dfs df_final out)).1 = Ret true)
  ∧ (lists_sets list_of → dfs ≠ [] →
     Forall (λ df, NoDup (columns df)) dfs →
     returns (concat_common_columns list_of dfs)).
Proof.
  assert (Hvalid : ∀ tables df_final,
            concat_common_columns list_of tables = Ret df_final →
            height df_final = total_rows tables
            ∧ validate_data (Validation tables df_final out)
              = (Ret true,
                 Validation tables df_final
                   (out ++ [Line "No rows were dropped during cleaning"]))).
  { intros tables df_final Hcat.
    pose proof (concat_common_columns_height list_of _ _ Hcat) as Hrows.
    split; [done|]. unfold validate_data; simpl.
    rewrite decide_True by done. by rewrite bool_decide_eq_true_2. }
  split_and!.
  - apply Hvalid.
  - intros unidecode src base_dir df_final all_dfs.
    unfold process_and_clean_data.
    destruct (read_headers src base_dir) as [headers|e]; [|done]. simpl.
    destruct (files_without_headers src base_dir headers) as [first|e];
      [|done]. simpl.
    destruct (files_with_headers src base_dir) as [others|e]; [|done]. simpl.
    destruct (concat_common_columns _ _) as [f|e] eqn:Hcat; [|done]. simpl.
    intros [= <- <-]. destruct (Hvalid _ _ Hcat) as [Hrows _].
    by rewrite bool_decide_eq_true_2.
  - intros Hlist Hne Hunique.
    destruct (concat_common_columns_unique list_of Hlist dfs Hne Hunique)
      as (cols & _ & _ & _ & Hcat).
    by eexists.
Qed.

Lemma unified_table_keeps_every_row_witness :
  ∃ df_final,
    concat_common_columns elements [table_2019; table_2020] = Ret df_final
    ∧ height df_final = 3
    ∧ (validate_data (Validation [table_2019; table_2020] df_final [])).1
      = Ret true.
Proof.
  assert (Hunique : Forall (λ df, NoDup (columns df))
                      [table_2019; table_2020])
    by compute_done.
  pose proof (unified_table_keeps_every_row elements
                [table_2019; table_2020] []) as (Hvalid & _ & Hbuilt).
  destruct (Hbuilt elements_lists_sets ltac:(done) Hunique)
    as [df_final Hcat].
  destruct (Hvalid df_final Hcat) as [Hrows Hrun].
  exists df_final. split_and!; [exact Hcat| |rewrite Hrun; reflexivity].
  rewrite Hrows. reflexivity.
Defined.
End ReconcilerClaims.

(** ** Numeric coercion *)

Section NumericFacts.
Import CleaningAndExport.
Variable to_number : string → option Q.



Lemma set_column_at_rows i (f : cell → cell) (df : frame) :
  rows (set_column_at i (f <$> column_at i df) df)
  = (λ row, <[i := f (cell_at i row)]> row) <$> rows df.
Proof.
  unfold set_column_at, column_at; simpl.
  rewrite <- list_fmap_compose.
  exact (zip_with_fmap_diag (λ row v, <[i := v]> row) (f ∘ cell_at i) (rows df)).
Qed.

Lemma cell_at_insert_eq i v (row : list cell) :
  i < length row → cell_at i (<[i := v]> row) = v.
Proof. intros Hi. unfold cell_at. by rewrite list_lookup_insert_eq. Qed.

Lemma cell_at_insert_ne i j v (row : list cell) :
  i ≠ j → cell_at j (<[i := v]> row) = cell_at j row.
Proof. intros Hij. unfold cell_at. by rewrite list_lookup_insert_ne. Qed.

Lemma positions_from_lookup (k : nat) c (labels : list string) (j : nat) :
  j ∈ positions_from k c labels → (k ≤ j)%nat ∧ labels !! (j - k) = Some c.
Proof.
  revert k. induction labels as [|x labels IH]; intros k; simpl.
  - by intros ?%elem_of_nil.
  - destruct (decide (x = c)) as [->|Hne].
    + intros [->|Hj]%elem_of_cons.
      * split; [lia|]. by replace (k - k) with 0 by lia.
      * destruct (IH _ Hj) as [Hk Hl]. split; [lia|].
        by replace (j - k) with (S (j - S k)) by lia.
    + intros Hj. destruct (IH _ Hj) as [Hk Hl]. split; [lia|].
      by replace (j - k) with (S (j - S k)) by lia.
Qed.

Lemma positions_one_lookup c (labels : list string) i more :
  positions c labels = i :: more → labels !! i = Some c.
Proof.
  intros Hpos.
  destruct (positions_from_lookup 0 c labels i) as [_ Hi].
  - fold (positions c labels). rewrite Hpos. by left.
  - by replace (i - 0) with i in Hi by lia.
Qed.

(** Replacing the column at [i] by its parse: the labels and the row
    widths stay, the column is the parse of the old one, the other columns
    are untouched. *)
Lemma set_column_at_parsed i (df : frame) :
  well_formed df → i < length (columns df) →
  let df' := set_column_at i (to_numeric to_number <$> column_at i df) df in
  columns df' = columns df
  ∧ well_formed df'
  ∧ column_at i df' = to_numeric to_number <$> column_at i df
  ∧ ∀ j, j ≠ i → column_at j df' = column_at j df.
Proof.
  intros Hwf Hi df'. unfold well_formed in *.
  assert (Hrows : rows df'
            = (λ row, <[i := to_numeric to_number (cell_at i row)]> row)
                <$> rows df) by apply set_column_at_rows.
  split_and!.
  - done.
  - rewrite Hrows. apply Forall_fmap.
    eapply Forall_impl; [exact Hwf|]. intros row Hrow. simpl.
    by rewrite length_insert.
  - unfold column_at. rewrite Hrows, <- !list_fmap_compose.
    apply list_fmap_ext. intros k row Hrow. simpl.
    apply cell_at_insert_eq.
    eapply Forall_lookup_1 in Hwf; [|exact Hrow]. simpl in Hwf. lia.
  - intros j Hj. unfold column_at. rewrite Hrows, <- !list_fmap_compose.
    apply list_fmap_ext. intros k row Hrow. simpl.
    by apply cell_at_insert_ne.
Qed.

(** The loop over distinct labels that each name one column: no error is
    printed, the running count grows by the mask sum of each column as it
    was at the start, every listed column ends as the parse of what it
    was, and every other column is untouched. *)
Lemma convert_loop (cols : list string) :
  NoDup cols →
  ∀ (df : frame) total (out : stdout),
    well_formed df →
    Forall (names_one_column df) cols →
    ∃ df',
      foldl (convert_step to_number) (df, total, out) cols
      = (df',
         total + sum_list ((λ c, mask_sum to_number (labelled_column df c))
                             <$> cols),
         out)
      ∧ columns df' = columns df
      ∧ well_formed df'
      ∧ (∀ c, c ∈ cols →
              labelled_column df' c
              = to_numeric to_number <$> labelled_column df c)
      ∧ (∀ c, c ∉ cols → labelled_column df' c = labelled_column df c).
Proof.
  induction 1 as [|col cols Hfresh Hnodup IH]; intros df total out Hwf Hone.
  - exists df. simpl. split_and!; [f_equal; f_equal; lia|done|done| |done].
    by intros c ?%elem_of_nil.
  - apply Forall_cons in Hone as [[i Hi] Hone].
    assert (Hlabel : columns df !! i = Some col)
      by by eapply positions_one_lookup.
    assert (Hlt : i < length (columns df)) by by eapply lookup_lt_Some.
    destruct (set_column_at_parsed i df Hwf Hlt)
      as (Hcols1 & Hwf1 & Hcol1 & Hrest1).
    set (df1 := set_column_at i
                  (to_numeric to_number <$> column_at i df) df) in *.
    assert (Hstep : convert_step to_number (df, total, out) col
                    = (df1, total + mask_sum to_number (column_at i df), out)).
    { unfold convert_step, convert_column, locate. by rewrite Hi. }
    assert (Hkeep : ∀ c, c ≠ col →
              labelled_column df1 c = labelled_column df c).
    { intros c Hc. unfold labelled_column. rewrite Hcols1.
      destruct (positions c (columns df)) as [|j more] eqn:Hj; [done|].
      apply Hrest1. intros ->.
      apply positions_one_lookup in Hj. congruence. }
    assert (Hone1 : Forall (names_one_column df1) cols).
    { eapply Forall_impl; [exact Hone|].
      intros c Hc. unfold names_one_column in *. by rewrite Hcols1. }
    destruct (IH df1 (total + mask_sum to_number (column_at i df)) out
                Hwf1 Hone1)
      as (df' & Hrun & Hcols' & Hwf' & Hdone & Hother).
    exists df'. cbn [foldl]. rewrite Hstep, Hrun.
    split_and!.
    + f_equal. f_equal. csimpl.
      unfold labelled_column at 2. rewrite Hi.
      rewrite <- Nat.add_assoc. do 3 f_equal.
      apply list_fmap_ext. intros k c Hk. simpl.
      rewrite Hkeep; [done|]. intros ->.
      apply Hfresh. by eapply list_elem_of_lookup_2.
    + by rewrite Hcols'.
    + done.
    + intros c [->|Hc]%elem_of_cons.
      * rewrite (Hother col Hfresh).
        unfold labelled_column. by rewrite Hcols1, Hi.
      * rewrite (Hdone c Hc), Hkeep; [done|]. by intros ->.
    + intros c Hc. rewrite Hother.
      * apply Hkeep. intros ->. apply Hc. by left.
      * intros Hin. apply Hc. by right.
Qed.
End NumericFacts.

Section NumericClaims.
Import CleaningAndExport.



End NumericClaims.

(** * Further properties of the code *)

(** ** data_loader.py: filing downloaded files *)

Section LoaderFacts.
Import DataLoader.

Lemma first_year_seq (start len : nat) (file_name : string) :
  match first_year (seq start len) file_name with
  | Some year =>
      (start ≤ year < start + len)%nat
      ∧ Str.occurs_in (pretty year) file_name = true
      ∧ ∀ y, (start ≤ y < year)%nat →
             Str.occurs_in (pretty y) file_name = false
  | None =>
      ∀ y, (start ≤ y < start + len)%nat →
           Str.occurs_in (pretty y) file_name = false
  end.
Proof.
  revert start. induction len as [|len IH]; intros start;
    cbn [first_year seq].
  - intros y Hy. lia.
  - destruct (Str.occurs_in (pretty start) file_name) eqn:Hstart.
    + split; [lia|split; [done|]]. intros y Hy. lia.
    + specialize (IH (S start)).
      destruct (first_year (seq (S start) len) file_name) as [year|].
      * destruct IH as (Hrange & Hin & Hbefore).
        split; [lia|split; [done|]]. intros y Hy.
        destruct (decide (y = start)) as [->|Hne]; [done|].
        apply Hbefore. lia.
      * intros y Hy.
        destruct (decide (y = start)) as [->|Hne]; [done|].
        apply IH. lia.
Qed.

(** [extract_year] returns the smallest year from 2015 to the current
    year whose decimal text occurs anywhere in the file name, and [None]
    exactly when no such year occurs. *)
Theorem extract_year_smallest (current_year : nat) (file_name : string) :
  match extract_year current_year file_name with
  | Some year =>
      (2015 ≤ year ≤ current_year)%nat
      ∧ Str.occurs_in (pretty year) file_name = true
      ∧ ∀ y, (2015 ≤ y < year)%nat →
             Str.occurs_in (pretty y) file_name = false
  | None =>
      ∀ y, (2015 ≤ y ≤ current_year)%nat →
           Str.occurs_in (pretty y) file_name = false
  end.
Proof.
  unfold extract_year, years.
  pose proof (first_year_seq 2015 (S current_year - 2015) file_name) as H.
  destruct (first_year _ file_name) as [year|].
  - destruct H as (Hrange & Hin & Hbefore). split; [lia|by split].
  - intros y Hy. apply H. lia.
Qed.

(** What [process_file] does when the destination is taken, and after it
    stored a file. *)
Lemma process_file_existing {D} (ops : disk_ops D) current_year
    file_path base_path data_dict_folder file_content (d : D) (out : stdout)
    destination :
  destination_of current_year base_path data_dict_folder (basename file_path)
  = Some destination →
  path_exists ops d destination = true →
  process_file current_year ops file_path base_path data_dict_folder
    file_content d out
  = (Ret (), d,
     out ++ [Line ("File already exists, skipping: " +:+ destination)]).
Proof. intros Hdest Hex. unfold process_file. by rewrite Hdest, Hex. Qed.

(** [process_file] never touches a destination that exists, whatever
    content it was given; and on a file system where a written or moved
    file exists afterwards, a run that returned normally is followed by
    runs that change nothing. *)
Theorem process_file_idempotent {D} (ops : disk_ops D) (current_year : nat)
    (file_path base_path data_dict_folder : string)
    (file_content : option string) (d : D) (out : stdout) :
  (∀ d p content d',
     write_bytes ops d p content = (Ret (), d') →
     path_exists ops d' p = true) →
  (∀ d src dst d',
     move ops d src dst = (Ret (), d') → path_exists ops d' dst = true) →
  (∀ destination,
     destination_of current_year base_path data_dict_folder
       (basename file_path) = Some destination →
     path_exists ops d destination = true →
     process_file current_year ops file_path base_path data_dict_folder
       file_content d out
     = (Ret (), d,
        out ++ [Line ("File already exists, skipping: " +:+ destination)]))
  ∧ (∀ d' out',
       process_file current_year ops file_path base_path data_dict_folder
         file_content d out = (Ret (), d', out') →
       ∀ again, ∃ line,
         process_file current_year ops file_path base_path data_dict_folder
           again d' out'
         = (Ret (), d', out' ++ [Line line])).
Proof.
  intros Hwrite Hmove. split.
  - intros destination. apply process_file_existing.
  - intros d' out' Hrun again. unfold process_file in *.
    destruct (destination_of _ _ _ _) as [destination|] eqn:Hdest.
    + destruct (path_exists ops d destination) eqn:Hex.
      * injection Hrun as <- <-. rewrite Hex. by eexists.
      * assert (Hnow : path_exists ops d' destination = true).
        { destruct file_content as [[|c content]|].
          - destruct (move ops d file_path destination) as [[[]|e] d1] eqn:Hm;
              [|done]. injection Hrun as <- <-. by eapply Hmove.
          - destruct (write_bytes ops d destination (String c content))
              as [[[]|e] d1] eqn:Hw; [|done].
            injection Hrun as <- <-. by eapply Hwrite.
          - destruct (move ops d file_path destination) as [[[]|e] d1] eqn:Hm;
              [|done]. injection Hrun as <- <-. by eapply Hmove. }
        rewrite Hnow. by eexists.
    + injection Hrun as <- <-. by eexists.
Qed.

Lemma process_file_idempotent_witness :
  ∃ line,
    process_file 2024 MoreExamples.map_disk "incidentes-2019.csv"
      "accident_data" "accident_data/data-dictionary" (Some "a,b")
      {[ "accident_data/2019/incidentes-2019.csv" := "a,b" ]}
      [Line "Moved file to: accident_data/2019/incidentes-2019.csv"]
    = (Ret (), {[ "accident_data/2019/incidentes-2019.csv" := "a,b" ]},
       [Line "Moved file to: accident_data/2019/incidentes-2019.csv"]
         ++ [Line line]).
Proof.
  assert (Hwrite : ∀ (d : gmap string string) p content d',
            write_bytes MoreExamples.map_disk d p content = (Ret (), d') →
            path_exists MoreExamples.map_disk d' p = true).
  { intros d p content d'. simpl. intros [= <-].
    apply bool_decide_eq_true. rewrite lookup_insert_eq. by eexists. }
  assert (Hmove : ∀ (d : gmap string string) src dst d',
            move MoreExamples.map_disk d src dst = (Ret (), d') →
            path_exists MoreExamples.map_disk d' dst = true).
  { intros d src dst d'. simpl. destruct (d !! src); [|done]. intros [= <-].
    apply bool_decide_eq_true. rewrite lookup_insert_eq. by eexists. }
  assert (Hfirst :
    process_file 2024 MoreExamples.map_disk "incidentes-2019.csv"
      "accident_data" "accident_data/data-dictionary" (Some "a,b") ∅ []
    = (Ret (), {[ "accident_data/2019/incidentes-2019.csv" := "a,b" ]},
       [Line "Moved file to: accident_data/2019/incidentes-2019.csv"])).
  { vm_compute. reflexivity. }
  destruct (proj2 (process_file_idempotent MoreExamples.map_disk 2024
                     "incidentes-2019.csv" "accident_data"
                     "accident_data/data-dictionary" (Some "a,b") ∅ []
                     Hwrite Hmove) _ _ Hfirst (Some "a,b")) as [line Hline].
  exists line. exact Hline.
Defined.
End LoaderFacts.

(** ** cleaning_and_export.py: sentinel replacement *)

Section SentinelFacts.
Import CleaningStages.

Lemma length_filter_bool_cons {A} (p : A → bool) (x : A) (l : list A) :
  length (filter (λ c, p c = true) (x :: l))
  = (if p x then 1 else 0) + length (filter (λ c, p c = true) l).
Proof.
  rewrite filter_cons. case_decide as Hx; destruct (p x); simpl; congruence.
Qed.




End SentinelFacts.

(** ** cleaning_and_export.py: labels the coercion cannot convert *)

Section CoercionLoopFacts.
Import CleaningAndExport Expected.
Variable to_number : string → option Q.

Lemma convert_column_labels (df df' : frame) col n :
  convert_column to_number df col = Ret (df', n) → columns df' = columns df.
Proof.
  unfold convert_column, locate.
  destruct (positions col (columns df)) as [|i [|j more]]; simpl; [done| |done].
  by intros [= <- _].
Qed.

Lemma convert_column_convertible (df : frame) col :
  convertible (columns df) col →
  ∃ df' n, convert_column to_number df col = Ret (df', n).
Proof.
  unfold convertible, convert_column, locate.
  destruct (positions col (columns df)) as [|i [|j more]]; simpl;
    [done| |done].
  intros _. by eexists _, _.
Qed.

Lemma convert_column_not_convertible (df : frame) col :
  ¬ convertible (columns df) col →
  ∃ e, convert_column to_number df col = Raise e
       ∧ conversion_error (columns df) col
         = Line ("Error converting column " +:+ col +:+ ": " +:+ exn_str e).
Proof.
  unfold convertible, convert_column, locate, conversion_error.
  destruct (positions col (columns df)) as [|i [|j more]]; simpl.
  - intros _. by eexists.
  - intros Hone. by destruct Hone.
  - intros _. by eexists.
Qed.

(** The loop with labels it cannot convert: one error line per such
    label, in order, and otherwise the run over the convertible labels. *)
Lemma convert_loop_skips (cols : list string) :
  ∀ (df : frame) total (out : stdout),
    ∃ df' total',
      foldl (convert_step to_number) (df, total, out) cols
      = (df', total',
         out ++ (conversion_error (columns df)
                   <$> filter (λ c, ¬ convertible (columns df) c) cols))
      ∧ columns df' = columns df
      ∧ ∀ out2,
          foldl (convert_step to_number) (df, total, out2)
            (filter (convertible (columns df)) cols)
          = (df', total', out2).
Proof.
  induction cols as [|col cols IH]; intros df total out.
  - exists df, total. simpl. by rewrite app_nil_r.
  - destruct (decide (convertible (columns df) col)) as [Hok|Hbad].
    + destruct (convert_column_convertible df col Hok) as (df1 & n & Hrun).
      pose proof (convert_column_labels _ _ _ _ Hrun) as Hlabels.
      assert (Hstep : ∀ o, convert_step to_number (df, total, o) col
                           = (df1, total + n, o)).
      { intros o. unfold convert_step. by rewrite Hrun. }
      destruct (IH df1 (total + n) out) as (df' & total' & Hfold & Hcols & Hgood).
      exists df', total'. rewrite Hlabels in *.
      rewrite filter_cons_False by (by intros []).
      rewrite filter_cons_True by done.
      cbn [foldl]. rewrite Hstep.
      split_and!; [exact Hfold|done|]. intros out2. rewrite Hstep. apply Hgood.
    + destruct (convert_column_not_convertible df col Hbad) as (e & Hrun & Hline).
      assert (Hstep : convert_step to_number (df, total, out) col
                      = (df, total, out ++ [conversion_error (columns df) col])).
      { unfold convert_step. by rewrite Hrun, Hline. }
      destruct (IH df total (out ++ [conversion_error (columns df) col]))
        as (df' & total' & Hfold & Hcols & Hgood).
      exists df', total'.
      rewrite filter_cons_True by done.
      rewrite filter_cons_False by done.
      cbn [foldl]. rewrite Hstep.
      split_and!; [|done|done].
      etrans; [exact Hfold|]. csimpl. by rewrite <- app_assoc.
Qed.

(** A label that names no column, or several, costs one error line and
    nothing else: the table and the reported count are those of the run
    over the remaining labels, and one line per such label is printed
    before the count. For labels of ASCII text the lines are, in the
    order of the labels, the key error with the [repr] of the label where
    no column carries it, and the type error where several do. *)
Theorem convert_numeric_columns_skips_bad_labels
    (df : frame) (cols : list string) (out : stdout) :
  ∃ total lines,
    convert_numeric_columns to_number df
      (filter (convertible (columns df)) cols) out
    = ((convert_numeric_columns to_number df cols out).1,
       out ++ [Line (coerced_message total)])
    ∧ (convert_numeric_columns to_number df cols out).2
      = out ++ lines ++ [Line (coerced_message total)]
    ∧ length lines
      = length (filter (λ c, ¬ convertible (columns df) c) cols)
    ∧ (Forall (λ c, Py.is_ascii c = true) cols →
       lines = conversion_error (columns df)
                 <$> filter (λ c, ¬ convertible (columns df) c) cols)
    ∧ columns (convert_numeric_columns to_number df cols out).1 = columns df.
Proof.
  destruct (convert_loop_skips cols df 0 out)
    as (df' & total & Hfold & Hcols & Hgood).
  exists total, (conversion_error (columns df)
                   <$> filter (λ c, ¬ convertible (columns df) c) cols).
  unfold convert_numeric_columns.
  rewrite Hfold, (Hgood out). cbn [fst snd].
  split_and!; [done| |by rewrite length_fmap|done|done].
  by rewrite <- app_assoc.
Qed.

Lemma to_numeric_idempotent (c : cell) :
  to_numeric to_number (to_numeric to_number c) = to_numeric to_number c.
Proof. destruct c as [|s|q]; simpl; [done| |done]. by destruct (to_number s). Qed.

Lemma mask_sum_converted (series : list cell) :
  mask_sum to_number (to_numeric to_number <$> series) = 0.
Proof.
  unfold mask_sum. induction series as [|c series IH]; [done|]. csimpl.
  rewrite length_filter_bool_cons, IH. unfold coerce_mask.
  rewrite to_numeric_idempotent.
  destruct c as [|s|q]; simpl; [done| |done]. by destruct (to_number s).
Qed.

(** Running the coercion again on its own result reports no coerced value
    and leaves every column as it is. *)
Theorem convert_numeric_columns_twice
    (df : frame) (cols : list string) (out out' : stdout) :
  well_formed df → NoDup cols →
  Forall (names_one_column df) cols →
  let once := (convert_numeric_columns to_number df cols out).1 in
  (convert_numeric_columns to_number once cols out').2
  = out' ++ [Line (coerced_message 0)]
  ∧ columns (convert_numeric_columns to_number once cols out').1 = columns df
  ∧ ∀ c, labelled_column (convert_numeric_columns to_number once cols out').1 c
         = labelled_column once c.
Proof.
  intros Hwf Hnodup Hone once.
  destruct (convert_loop to_number cols Hnodup df 0 out Hwf Hone)
    as (df1 & Hrun1 & Hcols1 & Hwf1 & Hdone1 & Hother1).
  assert (Honce : once = df1).
  { unfold once, convert_numeric_columns. by rewrite Hrun1. }
  rewrite Honce.
  assert (Hone1 : Forall (names_one_column df1) cols).
  { eapply Forall_impl; [exact Hone|]. intros c.
    unfold names_one_column. by rewrite Hcols1. }
  destruct (convert_loop to_number cols Hnodup df1 0 out' Hwf1 Hone1)
    as (df2 & Hrun2 & Hcols2 & Hwf2 & Hdone2 & Hother2).
  assert (Hzero : ∀ l, (∀ c, c ∈ l → c ∈ cols) →
            sum_list ((λ c, mask_sum to_number (labelled_column df1 c)) <$> l)
            = 0).
  { induction l as [|c l IHl]; intros Hsub; [done|]. csimpl.
    rewrite (Hdone1 c) by (apply Hsub; by left).
    rewrite mask_sum_converted. simpl. apply IHl.
    intros c' Hc'. apply Hsub. by right. }
  unfold convert_numeric_columns. rewrite Hrun2, (Hzero cols) by done.
  cbn [fst snd].
  split_and!; [done|by rewrite Hcols2|].
  intros c. destruct (decide (c ∈ cols)) as [Hin|Hout].
  - rewrite (Hdone2 c Hin), (Hdone1 c Hin).
    rewrite <- list_fmap_compose. apply list_fmap_ext.
    intros k x _. simpl. apply to_numeric_idempotent.
  - by apply Hother2.
Qed.
End CoercionLoopFacts.

Lemma convert_numeric_columns_skips_bad_labels_witness :
  ∃ total lines,
    (CleaningAndExport.convert_numeric_columns
       CleaningAndExport.decimal_literal MoreExamples.repeated_hour
       ["peso"; "edad"; "hora"; "it's"] []).2
    = [] ++ lines ++ [Line (CleaningAndExport.coerced_message total)]
    ∧ lines
      = [ Line "Error converting column peso: 'peso'";
          Line "Error converting column hora: arg must be a list, tuple, 1-d array, or Series";
          Line ("Error converting column it's: "
                +:+ String Py.double_quote
                      ("it's" +:+ String Py.double_quote "")) ].
Proof.
  destruct (convert_numeric_columns_skips_bad_labels
              CleaningAndExport.decimal_literal MoreExamples.repeated_hour
              ["peso"; "edad"; "hora"; "it's"] [])
    as (total & lines & _ & Hout & _ & Hlines & _).
  exists total, lines. split; [exact Hout|].
  rewrite Hlines; [vm_compute; reflexivity|].
  repeat constructor.
Defined.

Lemma convert_numeric_columns_twice_witness :
  (CleaningAndExport.convert_numeric_columns CleaningAndExport.decimal_literal
     (CleaningAndExport.convert_numeric_columns
        CleaningAndExport.decimal_literal numeric_example ["edad"] []).1
     ["edad"] []).2
  = [] ++ [Line (CleaningAndExport.coerced_message 0)].
Proof.
  assert (Hwf : well_formed numeric_example) by (repeat constructor).
  assert (Hnodup : NoDup ["edad"]) by compute_done.
  assert (Hone : Forall (names_one_column numeric_example) ["edad"])
    by (repeat constructor; by exists 0).
  exact (proj1 (convert_numeric_columns_twice
                  CleaningAndExport.decimal_literal numeric_example
                  ["edad"] [] [] Hwf Hnodup Hone)).
Defined.

(** ** Row filters *)

Section RowFilterFacts.
Import Polars PolarsRows.

Lemma keep_nil_r {A} (mask : list bool) : keep mask (@nil A) = [].
Proof. by destruct mask as [|[] mask]. Qed.





(** Filtering on a column and then on another: the rows that pass both
    tests, whichever test comes first. *)
Lemma keep_twice {A B C} (p : A → bool) (q : B → bool)
    (a : list A) (b : list B) (x : list C) :
  keep (q <$> keep (p <$> a) b) (keep (p <$> a) x)
  = keep (zip_with andb (p <$> a) (q <$> b)) x.
Proof.
  revert b x. induction a as [|a0 a IH]; intros b x; [done|].
  destruct b as [|b0 b]; csimpl.
  - rewrite ?keep_nil_r. by destruct (p a0).
  - destruct x as [|x0 x].
    + by rewrite ?keep_nil_r.
    + destruct (p a0); simpl; [destruct (q b0); simpl|];
        first [apply IH | f_equal; apply IH].
Qed.


Lemma zip_with_andb_comm (m1 m2 : list bool) :
  zip_with andb m1 m2 = zip_with andb m2 m1.
Proof.
  revert m2. induction m1 as [|x m1 IH]; intros [|y m2]; try done.
  simpl. by rewrite IH, andb_comm.
Qed.

Lemma get_column_filter_rows name mask (df : frame) :
  get_column name (filter_rows mask df)
  = match get_column name df with
    | Ret s => Ret (keep_series mask s)
    | Raise e => Raise e
    end.
Proof.
  induction df as [|[n s] df IH]; [done|]. csimpl.
  case_decide; [done|]. exact IH.
Qed.


(** Two masks computed one after the other, the second on the filtered
    column [b], act like their conjunction. *)
Lemma filter_rows_twice {A B} (p : A → bool) (q : B → bool)
    (a : list A) (b : list B) (df : frame) :
  filter_rows (q <$> keep (p <$> a) b) (filter_rows (p <$> a) df)
  = filter_rows (zip_with andb (p <$> a) (q <$> b)) df.
Proof.
  unfold filter_rows. rewrite <- list_fmap_compose.
  apply list_fmap_ext. intros i [n s] _. simpl. f_equal.
  destruct s as [vals|vals]; simpl; by rewrite keep_twice.
Qed.

End RowFilterFacts.

(** ** cleaning_and_export.py: the geographic filter *)

Section StateFilterFacts.
Import Polars PolarsRows CleaningStages.

Lemma filter_data_utf8 (df : Polars.frame) patterns vals :
  get_column "estado" df = Ret (Utf8 vals) →
  patterns ≠ [] →
  filter_data df patterns
  = Ret (filter_rows (contains_any patterns <$> vals) df).
Proof.
  intros Hcol Hpatterns. unfold filter_data. rewrite Hcol.
  by destruct patterns.
Qed.

Lemma filter_data_no_pattern :
  ∃ e, ∀ (df : Polars.frame) vals,
         get_column "estado" df = Ret (Utf8 vals) →
         filter_data df [] = Raise e.
Proof.
  eexists. intros df vals Hcol. unfold filter_data. by rewrite Hcol.
Qed.


End StateFilterFacts.

(** ** filter_and_visualize.py: the severity filter *)

Section SeverityFacts.
Import Polars PolarsRows FilterAndVisualize.

Lemma filter_crash_severity_int64 (df : Polars.frame) q vals :
  get_column "nivel_dano_vehiculo" df = Ret (Int64 vals) →
  out_of_range q = false →
  filter_crash_severity df q = Ret (filter_rows (at_least q <$> vals) df).
Proof.
  intros Hcol Hq. unfold filter_crash_severity. by rewrite Hq, Hcol.
Qed.




(** The state filter and the severity filter can be applied in either
    order: the result is the same table. *)
Theorem state_and_severity_filters_commute
    (df : Polars.frame) (patterns : list string) (q : Q) states levels :
  get_column "estado" df = Ret (Utf8 states) →
  get_column "nivel_dano_vehiculo" df = Ret (Int64 levels) →
  out_of_range q = false →
  (CleaningStages.filter_data df patterns
     ≫= λ d, filter_crash_severity d q)
  = (filter_crash_severity df q
       ≫= λ d, CleaningStages.filter_data d patterns).
Proof.
  intros Hstates Hlevels Hq.
  rewrite (filter_crash_severity_int64 _ _ _ Hlevels Hq).
  cbn [mbind outcome_bind bind].
  assert (Hstates' : get_column "estado"
                       (filter_rows (at_least q <$> levels) df)
                     = Ret (Utf8 (keep (at_least q <$> levels) states)))
    by (by rewrite get_column_filter_rows, Hstates).
  destruct (decide (patterns = [])) as [->|Hpatterns].
  { destruct filter_data_no_pattern as [e He].
    rewrite (He _ _ Hstates), (He _ _ Hstates'). done. }
  rewrite (filter_data_utf8 _ _ _ Hstates Hpatterns).
  cbn [mbind outcome_bind bind].
  rewrite (filter_crash_severity_int64 _ q
             (keep (contains_any patterns <$> states) levels)).
  - rewrite (filter_data_utf8 _ _ _ Hstates' Hpatterns).
    f_equal. rewrite !filter_rows_twice. f_equal.
    apply zip_with_andb_comm.
  - by rewrite get_column_filter_rows, Hlevels.
  - done.
Qed.

Lemma state_and_severity_filters_commute_witness :
  (CleaningStages.filter_data MoreExamples.crashes
     CleaningStages.default_states
     ≫= λ d, filter_crash_severity d 1)
  = (filter_crash_severity MoreExamples.crashes 1
       ≫= λ d, CleaningStages.filter_data d CleaningStages.default_states).
Proof.
  exact (state_and_severity_filters_commute MoreExamples.crashes
           CleaningStages.default_states 1
           [Some "Ciudad de Mexico"; Some "Jalisco"; Some "CIUDAD DE MEXICO"]
           [Some 3%Z; Some 4%Z; None] eq_refl eq_refl eq_refl).
Defined.
End SeverityFacts.

(** ** process_and_validate.py: the optional columns *)

Section MissingColumnFacts.
Import ProcessAndValidate.

Lemma cell_at_app_null i (row : list cell) :
  cell_at i (row ++ [CNull]) = cell_at i row.
Proof.
  unfold cell_at. destruct (decide (i < length row)) as [Hlt|Hge].
  - by rewrite lookup_app_l.
  - rewrite (lookup_ge_None_2 row i) by lia.
    rewrite lookup_app_r by lia.
    by destruct (i - length row) as [|[|k]].
Qed.

Lemma positions_from_app k c (labels more : list string) :
  positions_from k c (labels ++ more)
  = positions_from k c labels ++ positions_from (k + length labels) c more.
Proof.
  revert k. induction labels as [|x labels IH]; intros k; simpl.
  - by rewrite Nat.add_0_r.
  - rewrite IH. replace (S k + length labels) with (k + S (length labels)) by lia.
    by case_decide.
Qed.

Lemma positions_from_in k c (labels : list string) :
  c ∈ labels → ∃ i more, positions_from k c labels = i :: more.
Proof.
  intros Hin. destruct (positions_from k c labels) eqn:Hpos; [|by eexists _, _].
  by destruct (positions_from_present k c labels Hin).
Qed.

(** One optional column: what [add_missing] keeps and what it adds. *)
Lemma add_missing_spec name (df : frame) :
  name ∈ columns (add_missing name df)
  ∧ columns df `prefix_of` columns (add_missing name df)
  ∧ height (add_missing name df) = height df
  ∧ (well_formed df → well_formed (add_missing name df))
  ∧ (NoDup (columns df) → NoDup (columns (add_missing name df)))
  ∧ (∀ c, c ∈ columns df →
          labelled_column (add_missing name df) c = labelled_column df c)
  ∧ (name ∉ columns df → well_formed df →
     labelled_column (add_missing name df) name
     = replicate (height df) CNull)
  ∧ (name ∈ columns df → add_missing name df = df).
Proof.
  unfold add_missing. destruct (decide (name ∈ columns df)) as [Hin|Hout].
  - split_and!; try done; by exists [].
  - unfold assign_nan. simpl. split_and!.
    + apply elem_of_app. right. by left.
    + by exists [name].
    + unfold height; simpl. by rewrite length_fmap.
    + unfold well_formed; simpl. intros Hwf. apply Forall_fmap.
      eapply Forall_impl; [exact Hwf|]. intros row Hrow. simpl.
      rewrite !length_app, Hrow. done.
    + intros Hnodup. apply NoDup_app. split_and!; [done| |apply NoDup_singleton].
      intros x Hx ->%list_elem_of_singleton. done.
    + intros c Hc. unfold labelled_column, positions; simpl.
      rewrite positions_from_app.
      destruct (positions_from_in 0 c _ Hc) as (i & more & ->). simpl.
      unfold column_at; simpl. rewrite <- list_fmap_compose.
      apply list_fmap_ext. intros k row _. simpl. apply cell_at_app_null.
    + intros _ Hwf. unfold labelled_column, positions; simpl.
      rewrite positions_from_app, (positions_from_absent 0) by done.
      simpl. rewrite decide_True by done.
      unfold column_at, height; simpl. rewrite <- list_fmap_compose.
      unfold well_formed in Hwf.
      induction Hwf as [|row more Hrow _ IH]; [done|]. csimpl.
      rewrite IH. f_equal. unfold cell_at.
      rewrite lookup_app_r by lia.
      by replace (length (columns df) - length row) with 0 by lia.
    + done.
Qed.
End MissingColumnFacts.

Section OptionalColumnClaims.
Import ProcessAndValidate.

Lemma add_missing_columns_present (df : frame) :
  "rol_lesionado" ∈ columns (add_missing_columns df)
  ∧ "nivel_lesion" ∈ columns (add_missing_columns df).
Proof.
  unfold add_missing_columns.
  destruct (add_missing_spec "rol_lesionado" df) as (Hin1 & _).
  destruct (add_missing_spec "nivel_lesion" (add_missing "rol_lesionado" df))
    as (Hin2 & [more Hpre2] & _).
  split; [|done]. rewrite Hpre2. apply elem_of_app. by left.
Qed.

(** After [add_missing_columns] the labels [rol_lesionado] and
    [nivel_lesion] are present; the table keeps its rows, its former
    columns (labels and cells) in place, distinct labels and full rows;
    and a second application changes nothing. *)
Theorem add_missing_columns_contract (df : frame) :
  "rol_lesionado" ∈ columns (add_missing_columns df)
  ∧ "nivel_lesion" ∈ columns (add_missing_columns df)
  ∧ columns df `prefix_of` columns (add_missing_columns df)
  ∧ height (add_missing_columns df) = height df
  ∧ (well_formed df → well_formed (add_missing_columns df))
  ∧ (NoDup (columns df) → NoDup (columns (add_missing_columns df)))
  ∧ (∀ c, c ∈ columns df →
          labelled_column (add_missing_columns df) c = labelled_column df c)
  ∧ add_missing_columns (add_missing_columns df) = add_missing_columns df.
Proof.
  unfold add_missing_columns.
  destruct (add_missing_spec "rol_lesionado" df)
    as (Hin1 & Hpre1 & Hh1 & Hwf1 & Hnd1 & Hkeep1 & _ & _).
  destruct (add_missing_spec "nivel_lesion" (add_missing "rol_lesionado" df))
    as (Hin2 & Hpre2 & Hh2 & Hwf2 & Hnd2 & Hkeep2 & _ & Hfix2).
  assert (Hsub : ∀ c, c ∈ columns (add_missing "rol_lesionado" df) →
            c ∈ columns (add_missing "nivel_lesion"
                           (add_missing "rol_lesionado" df))).
  { intros c Hc. destruct Hpre2 as [more ->]. apply elem_of_app. by left. }
  split_and!.
  - by apply Hsub.
  - done.
  - by etrans.
  - by rewrite Hh2.
  - auto.
  - auto.
  - intros c Hc. rewrite Hkeep2, Hkeep1; [done|done|].
    destruct Hpre1 as [more ->]. apply elem_of_app. by left.
  - destruct (add_missing_spec "rol_lesionado"
                (add_missing "nivel_lesion" (add_missing "rol_lesionado" df)))
      as (_ & _ & _ & _ & _ & _ & _ & Hfix1).
    destruct (add_missing_spec "nivel_lesion"
                (add_missing "nivel_lesion" (add_missing "rol_lesionado" df)))
      as (_ & _ & _ & _ & _ & _ & _ & Hfix3).
    rewrite Hfix1 by by apply Hsub. by apply Hfix3.
Qed.

Lemma add_missing_columns_contract_witness :
  well_formed (add_missing_columns table_2019)
  ∧ NoDup (columns (add_missing_columns table_2019))
  ∧ labelled_column (add_missing_columns table_2019) "mes"
    = labelled_column table_2019 "mes".
Proof.
  pose proof (add_missing_columns_contract table_2019)
    as (_ & _ & _ & _ & Hwf & Hnodup & Hkeep & _).
  split_and!.
  - apply Hwf. repeat constructor.
  - apply Hnodup. compute_done.
  - apply Hkeep. compute_done.
Defined.

(** Whatever [process_and_clean_data] returns, each of its per-file
    tables carries [rol_lesionado] and [nivel_lesion]; when the labels of
    each table are distinct, the unified table has exactly the labels
    that every per-file table carries, these two among them. *)
Theorem unified_table_columns
    (list_of : gset string → list string) (unidecode : string → string)
    (src : sources) (base_dir : string) (df_final : frame)
    (all_dfs : list frame) :
  lists_sets list_of →
  process_and_clean_data list_of unidecode src base_dir
  = Ret (df_final, all_dfs) →
  Forall (λ df, "rol_lesionado" ∈ columns df ∧ "nivel_lesion" ∈ columns df)
    all_dfs
  ∧ (Forall (λ df, NoDup (columns df)) all_dfs →
     "rol_lesionado" ∈ columns df_final
     ∧ "nivel_lesion" ∈ columns df_final
     ∧ NoDup (columns df_final)
     ∧ ∀ c, c ∈ columns df_final ↔ ∀ df, df ∈ all_dfs → c ∈ columns df).
Proof.
  intros Hlist. unfold process_and_clean_data.
  destruct (read_headers src base_dir) as [headers|e]; [|done]. simpl.
  destruct (files_without_headers src base_dir headers) as [first|e];
    [|done]. simpl.
  destruct (files_with_headers src base_dir) as [others|e]; [|done]. simpl.
  set (raw := if negb (empty first) then first :: others else others).
  destruct (concat_common_columns _ _) as [f|e] eqn:Hcat; [|done]. simpl.
  intros [= <- <-].
  assert (Hboth : Forall (λ df, "rol_lesionado" ∈ columns df
                                ∧ "nivel_lesion" ∈ columns df)
                    (add_missing_columns <$> (clean_column_names unidecode <$> raw))).
  { apply Forall_fmap, Forall_forall. intros df _. simpl.
    apply add_missing_columns_present. }
  split; [done|]. intros Hunique.
  assert (Hne : add_missing_columns <$> (clean_column_names unidecode <$> raw)
                ≠ []).
  { intros Hnil. rewrite Hnil in Hcat. done. }
  destruct (concat_common_columns_unique list_of Hlist _ Hne Hunique)
    as (cols & _ & Hnodup & Hin & Hcat').
  rewrite Hcat in Hcat'. injection Hcat' as ->. simpl.
  split_and!; [| |done|done].
  - apply Hin. intros df Hdf. rewrite Forall_forall in Hboth.
    by apply Hboth.
  - apply Hin. intros df Hdf. rewrite Forall_forall in Hboth.
    by apply Hboth.
Qed.
End OptionalColumnClaims.

Section PipelineEdgeClaims.
Import ProcessAndValidate.

Lemma unified_table_columns_witness :
  ∃ df_final all_dfs,
    process_and_clean_data elements id MoreExamples.yearly_files
      "accident_data" = Ret (df_final, all_dfs)
    ∧ "rol_lesionado" ∈ columns df_final
    ∧ "nivel_lesion" ∈ columns df_final.
Proof.
  destruct (process_and_clean_data elements id MoreExamples.yearly_files
              "accident_data") as [[df_final all_dfs]|e] eqn:Hrun;
    [|vm_compute in Hrun; discriminate].
  pose proof (unified_table_columns elements id _ _ _ _
                elements_lists_sets Hrun) as [_ Hfinal].
  assert (Hunique : Forall (λ df, NoDup (columns df)) all_dfs).
  { vm_compute in Hrun. injection Hrun as _ <-. compute_done. }
  destruct (Hfinal Hunique) as (Hrol & Hnivel & _).
  exists df_final, all_dfs. split; [reflexivity|]. split; assumption.
Defined.

(** With no data file at all (no file without headers, or only empty
    ones, and no file with headers) [process_and_clean_data] does not
    return an empty table: the intersection of no column sets raises a
    [TypeError]. *)
Theorem process_and_clean_data_without_files
    (list_of : gset string → list string) (unidecode : string → string)
    (src : sources) (base_dir : string) headers (first : frame) :
  read_headers src base_dir = Ret headers →
  files_without_headers src base_dir headers = Ret first →
  empty first = true →
  files_with_headers src base_dir = Ret [] →
  process_and_clean_data list_of unidecode src base_dir
  = Raise (TypeError "unbound method set.intersection() needs an argument").
Proof.
  intros Hheaders Hfirst Hempty Hothers. unfold process_and_clean_data.
  rewrite Hheaders. simpl. rewrite Hfirst. simpl. rewrite Hothers. simpl.
  by rewrite Hempty.
Qed.

Lemma process_and_clean_data_without_files_witness :
  process_and_clean_data elements id dictionary_on_disk "accident_data"
  = Raise (TypeError "unbound method set.intersection() needs an argument").
Proof.
  exact (process_and_clean_data_without_files elements id dictionary_on_disk
           "accident_data"
           [CStr "Siniestro"; CStr "Mes Reporte"; CStr "Día Numero"; CStr "Hora"]
           no_frame eq_refl eq_refl eq_refl eq_refl).
Defined.

Lemma rename_cases table (c : string) :
  rename table c = c ∨ rename table c ∈ table.*2.
Proof.
  induction table as [|[old new] table IH]; simpl; [by left|].
  case_decide.
  - right. by left.
  - destruct IH as [?|?]; [by left|right; by right].
Qed.

(** The rename table sends every alias to its canonical label and leaves
    canonical labels alone, so renaming a label twice is renaming it
    once. *)
Theorem rename_settles (c : string) :
  rename column_renames (rename column_renames c) = rename column_renames c
  ∧ Forall (λ '(old, new), rename column_renames old = new
                           ∧ rename column_renames new = new)
      column_renames.
Proof.
  split.
  - destruct (rename_cases column_renames c) as [Hsame|Hnew].
    + rewrite Hsame. exact Hsame.
    + generalize dependent (rename column_renames c). intros r Hr.
      unfold column_renames in Hr. simpl in Hr.
      repeat (apply elem_of_cons in Hr as [->|Hr]; [vm_compute; reflexivity|]).
      by apply elem_of_nil in Hr.
  - unfold column_renames. repeat constructor; vm_compute; reflexivity.
Qed.
End PipelineEdgeClaims.

(** ** cleaning_and_export.py: more on the month translation *)

Section MonthTextFacts.

Lemma lower_char_idempotent (c : ascii) :
  Str.lower_char (Str.lower_char c) = Str.lower_char c
  ∧ (Ascii.eqb c Str.latin1_lead = false →
     Ascii.eqb (Str.lower_char c) Str.latin1_lead = false).
Proof.
  destruct c as [[] [] [] [] [] [] [] []]; split; vm_compute; done.
Qed.

Lemma lower_latin1_idempotent (d : ascii) :
  Str.lower_latin1 (Str.lower_latin1 d) = Str.lower_latin1 d.
Proof. destruct d as [[] [] [] [] [] [] [] []]; vm_compute; done. Qed.

Lemma lower_idempotent_upto (n : nat) :
  ∀ s, (String.length s ≤ n)%nat → Str.lower (Str.lower s) = Str.lower s.
Proof.
  induction n as [|n IH]; intros [|c t] Hlen; simpl in Hlen; try done;
    [lia|].
  cbn [Str.lower].
  destruct (Ascii.eqb c Str.latin1_lead) eqn:Hc.
  - destruct t as [|d t']; cbn [Str.lower]; rewrite Hc; [done|].
    rewrite lower_latin1_idempotent.
    f_equal. f_equal. apply IH. simpl in Hlen. lia.
  - cbn [Str.lower].
    destruct (lower_char_idempotent c) as [Hidem Hlead].
    rewrite (Hlead Hc), Hidem. f_equal. apply IH. lia.
Qed.

Lemma lower_idempotent s : Str.lower (Str.lower s) = Str.lower s.
Proof. by apply (lower_idempotent_upto (String.length s)). Qed.

End MonthTextFacts.

Section MonthNumberFacts.

Lemma digit_is_plain (c : ascii) :
  Str.is_digit c = true →
  Ascii.eqb c Str.latin1_lead = false ∧ Str.lower_char c = c.
Proof. destruct c as [[] [] [] [] [] [] [] []]; vm_compute; done. Qed.

Lemma digits_lower (s : string) :
  ∀ acc z, Str.digits acc s = Some z → Str.lower s = s.
Proof.
  induction s as [|c t IH]; intros acc z; cbn [Str.digits Str.lower]; [done|].
  destruct (Str.is_digit c) eqn:Hc; [|done].
  destruct (digit_is_plain c Hc) as [-> ->].
  intros Ht. f_equal. by eapply IH.
Qed.

Lemma first_match_digit rules (c : ascii) (t : string) :
  Str.is_digit c = true →
  Forall (λ rule : string * string,
            match rule.1 with
            | "" => True
            | String a _ => Str.is_digit a = false
            end) rules →
  Str.first_match rules (String c t) = None.
Proof.
  intros Hc. induction 1 as [|[pat rep] rules Hpat _ IH]; [done|].
  cbn [Str.first_match]. destruct pat as [|a p]; [done|].
  unfold Str.startswith. cbn [Str.strip_prefix].
  destruct (Ascii.eqb a c) eqn:Hac; [|done].
  apply Ascii.eqb_eq in Hac. subst a. simpl in Hpat. congruence.
Qed.

Lemma digits_scan rules (s : string) :
  Forall (λ rule : string * string,
            match rule.1 with
            | "" => True
            | String a _ => Str.is_digit a = false
            end) rules →
  ∀ acc z, Str.digits acc s = Some z → Str.replace_scan rules 0 s = s.
Proof.
  intros Hrules. induction s as [|c t IH]; intros acc z; [done|].
  cbn [Str.digits Str.replace_scan].
  destruct (Str.is_digit c) eqn:Hc; [|done].
  rewrite (first_match_digit _ _ _ Hc Hrules).
  intros Ht. f_equal. by eapply IH.
Qed.

Lemma month_chain_digits (s : string) :
  is_Some (Str.unsigned_digits s) → Spec.month_chain s = Str.parse_int64 s.
Proof.
  intros [z Hz]. unfold Spec.month_chain, Str.replace_many.
  assert (Hd : Str.digits 0 s = Some z) by (by destruct s).
  rewrite (digits_lower _ _ _ Hd).
  rewrite (digits_scan _ s) with (acc := 0%Z) (z := z); [|..|done].
  - rewrite (digits_scan _ s) with (acc := 0%Z) (z := z); [done|..|done].
    repeat constructor.
  - repeat constructor.
Qed.

Lemma month_chain_lower (s : string) :
  Spec.month_chain (Str.lower s) = Spec.month_chain s.
Proof. unfold Spec.month_chain. by rewrite lower_idempotent. Qed.

End MonthNumberFacts.

Section TranslationFacts.
Import Polars CleaningAndExport.

Lemma set_column_names name s (df : Polars.frame) :
  (set_column name s df).*1 = df.*1.
Proof.
  induction df as [|[n old] df IH]; [done|].
  cbn [set_column]. case_decide; [done|].
  rewrite !fmap_cons. by rewrite IH.
Qed.

Lemma get_set_column_ne name other s (df : Polars.frame) :
  other ≠ name → get_column other (set_column name s df) = get_column other df.
Proof.
  intros Hne. induction df as [|[n old] df IH]; simpl; [done|].
  destruct (decide (n = name)) as [->|Hn]; simpl.
  - by rewrite !decide_False by done.
  - case_decide; [done|]. exact IH.
Qed.

(** A string expression on a column that is absent or holds integers
    raises, and so does the [with_columns] around it. *)
Lemma with_column_str_Ret name f (rest : series → Py.outcome series)
    (df df' : Polars.frame) :
  with_column name (λ col, col ← str_map f col; rest col) df = Ret df' →
  ∃ vals, get_column name df = Ret (Utf8 vals).
Proof.
  unfold with_column. destruct (get_column name df) as [[vals|vals]|e];
    simpl; [eauto|done..].
Qed.

Lemma translate_months_Ret (pl_df df' : Polars.frame) (out out' : stdout) :
  translate_months pl_df out = (Ret df', out') →
  ∃ vals, get_column "mes" pl_df = Ret (Utf8 vals).
Proof.
  unfold translate_months.
  destruct (with_column "mes" _ pl_df) as [pl1|e] eqn:Hfirst; [|done].
  intros _. by apply with_column_str_Ret in Hfirst.
Qed.

Lemma process_damage_levels_Ret (pl_df df' : Polars.frame) :
  process_damage_levels pl_df = Ret df' →
  ∃ vals, get_column "nivel_dano_vehiculo" pl_df = Ret (Utf8 vals).
Proof.
  unfold process_damage_levels, with_column.
  destruct (get_column _ pl_df) as [[vals|vals]|e]; simpl; [eauto|done..].
Qed.

End TranslationFacts.

Section TranslationClaims.
Import Polars CleaningAndExport.

(** Whenever the month translation returns, the column [mes] held strings
    before and holds as many integers now, a null where there was a null;
    the names and the order of the columns and every other column are
    untouched; the report is printed exactly when the new column holds a
    null, and then it is the heading and the one-row table of a null. *)
Theorem translate_months_touches_one_column
    (pl_df df' : Polars.frame) (out out' : stdout) :
  translate_months pl_df out = (Ret df', out') →
  df'.*1 = pl_df.*1
  ∧ (∀ name, name ≠ "mes" → get_column name df' = get_column name pl_df)
  ∧ ∃ old new,
      get_column "mes" pl_df = Ret (Utf8 old)
      ∧ get_column "mes" df' = Ret (Int64 new)
      ∧ length new = length old
      ∧ (∀ i, old !! i = Some None → new !! i = Some None)
      ∧ (out' = out ↔ None ∉ new)
      ∧ (None ∈ new →
         out' = out ++ [Line "Values in 'mes' that couldn't be converted to integers:";
                        Table [("mes", Int64 [None])]]).
Proof.
  intros Hrun. destruct (translate_months_Ret _ _ _ _ Hrun) as [vals Hmes].
  rewrite (translate_months_utf8 _ _ _ Hmes) in Hrun.
  injection Hrun as <- <-. split_and!.
  - apply set_column_names.
  - intros name Hname. by apply get_set_column_ne.
  - exists vals, ((λ v, v ≫= Spec.month_chain) <$> vals). split_and!.
    + exact Hmes.
    + exact (get_set_column _ _ _ _ Hmes).
    + by rewrite length_fmap.
    + intros i Hi. by rewrite list_lookup_fmap, Hi.
    + case_decide as Hnull.
      * split; [|done]. intros Hout%(f_equal length).
        rewrite length_app in Hout. simpl in Hout. lia.
      * by rewrite app_nil_r.
    + intros Hnull. by rewrite decide_True.
Qed.

Lemma translate_months_touches_one_column_witness :
  translate_months
    [("ano", Int64 [Some 2019%Z; Some 2020%Z]);
     ("mes", Utf8 [Some "Marzo"; None])] []
  = (Ret [("ano", Int64 [Some 2019%Z; Some 2020%Z]);
          ("mes", Int64 [Some 3%Z; None])],
     [Line "Values in 'mes' that couldn't be converted to integers:";
      Table [("mes", Int64 [None])]])
  ∧ get_column "ano"
      [("ano", Int64 [Some 2019%Z; Some 2020%Z]);
       ("mes", Int64 [Some 3%Z; None])]
    = get_column "ano"
        [("ano", Int64 [Some 2019%Z; Some 2020%Z]);
         ("mes", Utf8 [Some "Marzo"; None])].
Proof.
  assert (Hrun :
    translate_months
      [("ano", Int64 [Some 2019%Z; Some 2020%Z]);
       ("mes", Utf8 [Some "Marzo"; None])] []
    = (Ret [("ano", Int64 [Some 2019%Z; Some 2020%Z]);
            ("mes", Int64 [Some 3%Z; None])],
       [Line "Values in 'mes' that couldn't be converted to integers:";
        Table [("mes", Int64 [None])]])) by (vm_compute; reflexivity).
  split; [exact Hrun|].
  exact (proj1 (proj2 (translate_months_touches_one_column _ _ _ _ Hrun))
           "ano" ltac:(discriminate)).
Defined.

(** Neither translation can be applied to its own result: the column it
    leaves holds integers, on which the first string expression of a
    second run raises, before anything is printed. *)
Theorem translations_do_not_repeat :
  (∀ (pl_df df' : Polars.frame) (out out' : stdout),
     translate_months pl_df out = (Ret df', out') →
     ∀ out2 : stdout, ∃ e, translate_months df' out2 = (Raise e, out2))
  ∧ (∀ pl_df df' : Polars.frame,
       process_damage_levels pl_df = Ret df' →
       ∃ e, process_damage_levels df' = Raise e).
Proof.
  split.
  - intros pl_df df' out out' Hrun out2.
    destruct (translate_months_Ret _ _ _ _ Hrun) as [vals Hmes].
    rewrite (translate_months_utf8 _ _ _ Hmes) in Hrun.
    injection Hrun as <- _.
    unfold translate_months.
    rewrite (with_column_found _ _ _ _ (get_set_column _ _ _ _ Hmes)).
    simpl. by eexists.
  - intros pl_df df' Hrun.
    destruct (process_damage_levels_Ret _ _ Hrun) as [vals Hcol].
    rewrite (process_damage_levels_utf8 _ _ Hcol) in Hrun.
    injection Hrun as <-.
    unfold process_damage_levels.
    rewrite (with_column_found _ _ _ _ (get_set_column _ _ _ _ Hcol)).
    simpl. by eexists.
Qed.

Lemma translations_do_not_repeat_witness :
  (∃ e, translate_months [("mes", Int64 [Some 3%Z; None])] [] = (Raise e, []))
  ∧ (∃ e, process_damage_levels
            [("nivel_dano_vehiculo", Int64 [Some 2%Z; Some 1%Z])] = Raise e).
Proof.
  split.
  - exact (proj1 translations_do_not_repeat
             [("mes", Utf8 [Some "Marzo"; None])]
             [("mes", Int64 [Some 3%Z; None])] []
             [Line "Values in 'mes' that couldn't be converted to integers:";
              Table [("mes", Int64 [None])]]
             ltac:(vm_compute; reflexivity) []).
  - exact (proj2 translations_do_not_repeat
             [("nivel_dano_vehiculo", Utf8 [Some "Bajo"; Some "Sin daño"])]
             [("nivel_dano_vehiculo", Int64 [Some 2%Z; Some 1%Z])]
             ltac:(vm_compute; reflexivity)).
Defined.

(** The month translation does not depend on the case of its input, and
    on a column whose strings are runs of decimal digits it is the plain
    integer cast of that column. *)
Theorem translate_months_numeric_text
    (pl_df : Polars.frame) vals (out : stdout) :
  get_column "mes" pl_df = Ret (Utf8 vals) →
  translate_months
    (set_column "mes" (Utf8 (option_map Str.lower <$> vals)) pl_df) out
  = translate_months pl_df out
  ∧ (Forall (λ v, ∀ s, v = Some s → is_Some (Str.unsigned_digits s)) vals →
     (translate_months pl_df out).1 = with_column "mes" cast_int64 pl_df).
Proof.
  intros Hmes. split.
  - rewrite (translate_months_utf8 _ _ _ (get_set_column _ _ _ _ Hmes)).
    rewrite (translate_months_utf8 _ _ _ Hmes).
    rewrite set_set_column.
    assert (Hsame : (λ v, v ≫= Spec.month_chain)
                      <$> (option_map Str.lower <$> vals)
                    = (λ v, v ≫= Spec.month_chain) <$> vals).
    { rewrite <- list_fmap_compose. apply list_fmap_ext.
      intros _ [s|] _; simpl; [apply month_chain_lower|done]. }
    by rewrite Hsame.
  - intros Hdigits. rewrite (translate_months_utf8 _ _ _ Hmes).
    rewrite (with_column_found _ _ _ _ Hmes). simpl.
    do 3 f_equal. apply Forall_fmap_ext.
    eapply Forall_impl; [exact Hdigits|].
    intros [s|] Hs; simpl; [|done]. apply month_chain_digits. by apply Hs.
Qed.

Lemma translate_months_numeric_text_witness :
  translate_months [("mes", Utf8 [Some "MARZO"; None; Some "12"])] []
  = translate_months [("mes", Utf8 [Some "marzo"; None; Some "12"])] []
  ∧ (translate_months [("mes", Utf8 [Some "3"; None; Some "12"])] []).1
    = Ret [("mes", Int64 [Some 3%Z; None; Some 12%Z])].
Proof.
  split.
  - symmetry.
    exact (proj1 (translate_months_numeric_text
                    [("mes", Utf8 [Some "MARZO"; None; Some "12"])]
                    [Some "MARZO"; None; Some "12"] [] eq_refl)).
  - rewrite (proj2 (translate_months_numeric_text
                      [("mes", Utf8 [Some "3"; None; Some "12"])]
                      [Some "3"; None; Some "12"] [] eq_refl));
      [reflexivity|].
    repeat constructor; intros s [= <-]; by eexists.
Defined.

End TranslationClaims.

(** ** cleaning_and_export.py: the exporter's settings and outcome *)

Section ExportClaims.
Import Polars CleaningAndExport.

(** A failure to create the directory is raised to the caller with
    nothing printed. Once the directory exists the call returns and
    prints one line; the writer of the format gets the caller's settings
    laid over the defaults of the format, and the line is the success
    line when that writer returned, its error when it raised, and the
    unsupported-format error for any other tag. *)
Theorem export_dataframe_outcome (io : writers) (df : Polars.frame)
    (file_path format : string) (options : option (gmap string setting))
    (out : stdout) :
  (∀ e, mkdir_parent io file_path = Raise e →
        export_dataframe io df file_path format options out = (Raise e, out))
  ∧ (mkdir_parent io file_path = Ret () →
     ∃ settings line,
       (∀ key, settings !! key = Expected.merged_setting format options key)
       ∧ export_dataframe io df file_path format options out
         = (Ret (), out ++ [line])
       ∧ (format = "csv" →
          line = Expected.export_line io file_path
                   (write_csv io df file_path settings))
       ∧ (format = "parquet" →
          line = Expected.export_line io file_path
                   (write_parquet io df file_path settings))
       ∧ (format = "json" →
          line = Expected.export_line io file_path
                   (write_json io df file_path settings))
       ∧ (¬ Spec.supported format →
          line = Line ("Error exporting DataFrame: Unsupported format: "
                       +:+ format))).
Proof.
  split.
  - intros e Hdir. unfold export_dataframe. by rewrite Hdir.
  - intros Hdir.
    set (defaults := default ∅ (default_options !! format)).
    set (settings := match options with
                     | Some given => given ∪ defaults
                     | None => defaults
                     end).
    assert (Hlookup : ∀ key,
              settings !! key = Expected.merged_setting format options key).
    { intros key. unfold settings, defaults, Expected.merged_setting.
      assert (Hdefault : default ∅ (default_options !! format) !! key
                         = default_options !! format ≫= (λ d, d !! key)).
      { destruct (default_options !! format); simpl; [done|].
        apply lookup_empty. }
      destruct options as [given|]; simpl.
      - rewrite lookup_union, Hdefault.
        destruct (given !! key), (_ ≫= _); done.
      - exact Hdefault. }
    exists settings.
    unfold export_dataframe, export_body. rewrite Hdir.
    fold defaults. fold settings. unfold Spec.supported.
    destruct (decide (format = "csv")) as [->|Hcsv].
    { destruct (write_csv io df file_path settings) as [[]|e];
        eexists; split_and!; try done; try reflexivity; intros; tauto. }
    destruct (decide (format = "parquet")) as [->|Hparquet].
    { destruct (write_parquet io df file_path settings) as [[]|e];
        eexists; split_and!; try done; try reflexivity; intros; tauto. }
    destruct (decide (format = "json")) as [->|Hjson].
    { destruct (write_json io df file_path settings) as [[]|e];
        eexists; split_and!; try done; try reflexivity; intros; tauto. }
    eexists; split_and!; try done; try reflexivity.
Qed.

Lemma export_dataframe_outcome_witness :
  ∃ (settings : gmap string setting) line,
    settings !! "separator" = Some (SText ";")
    ∧ settings !! "include_header" = Some (SFlag true)
    ∧ export_dataframe working_writers [] "out/crashes.csv" "csv"
        (Some {[ "separator" := SText ";" ]}) []
      = (Ret (), [line])
    ∧ line = Line "DataFrame successfully exported to out/crashes.csv".
Proof.
  destruct (proj2 (export_dataframe_outcome working_writers []
                     "out/crashes.csv" "csv"
                     (Some {[ "separator" := SText ";" ]}) []) eq_refl)
    as (settings & line & Hlookup & Hrun & Hcsv & _).
  exists settings, line. split_and!.
  - rewrite Hlookup. vm_compute. reflexivity.
  - rewrite Hlookup. vm_compute. reflexivity.
  - exact Hrun.
  - exact (Hcsv eq_refl).
Defined.

End ExportClaims.
